(** * LLM question-answering core: a shallow embedding of [llm_qa_core.py]
      and of the JSON endpoint of [app.py].

    Python strings are sequences of Unicode code points.  The character
    classes used by [str.strip], [str.lower] and the [\w] class of [re] are
    fixed on ASCII and read from the Unicode character database elsewhere;
    the database is a parameter of the development ([UnicodeData]). *)

From Stdlib Require Import NArith ZArith QArith Bool Ascii String Lia ZifyBool.
From stdpp Require Import base option list gmap strings.

Local Open Scope N_scope.

(** ** Strings *)

(** A Python [str]: the list of its code points. *)
Abbreviation str := (list N) (only parsing).

(** A literal of the source, written as a Rocq string of ASCII characters. *)
Definition py (lit : string) : str :=
  map N_of_ascii (list_ascii_of_string lit).
Arguments py lit%_string.

Definition nl : str := [10].
Definition dquote : str := [34].

(** Truthiness of an [Optional[str]]: [None] and the empty string are
    falsy. *)
Definition truthy (o : option str) : bool :=
  match o with
  | Some (_ :: _) => true
  | _ => false
  end.

(** [a or b] on optional strings. *)
Definition py_or (a b : option str) : option str :=
  if truthy a then a else b.

(** [sep.join(parts)] *)
Fixpoint join (sep : str) (parts : list str) : str :=
  match parts with
  | [] => []
  | [x] => x
  | x :: rest => x ++ sep ++ join sep rest
  end.

Fixpoint take_while (P : N -> bool) (s : str) : str :=
  match s with
  | c :: s' => if P c then c :: take_while P s' else []
  | [] => []
  end.

Fixpoint drop_while (P : N -> bool) (s : str) : str :=
  match s with
  | c :: s' => if P c then drop_while P s' else s
  | [] => []
  end.

(** The pieces of [s] between the characters satisfying [sep]
    ([str.split] on a one-character separator, [re.split] on a class):
    always at least one piece, empty pieces kept. *)
Fixpoint split_on (sep : N -> bool) (s : str) : list str :=
  match s with
  | [] => [[]]
  | c :: s' =>
      if sep c then [] :: split_on sep s'
      else match split_on sep s' with
           | w :: ws => (c :: w) :: ws
           | [] => [[c]]
           end
  end.

Definition nonempty (s : str) : bool :=
  match s with [] => false | _ :: _ => true end.

Fixpoint starts_with (s p : str) {struct p} : bool :=
  match p, s with
  | [], _ => true
  | a :: p', b :: s' => (a =? b) && starts_with s' p'
  | _ :: _, [] => false
  end.

(** [needle in haystack] *)
Fixpoint contains (haystack needle : str) : bool :=
  starts_with haystack needle ||
  match haystack with
  | [] => false
  | _ :: h' => contains h' needle
  end.

(** ** Character classes *)

(** The part of the Unicode character database the program consults,
    through [str.isspace], [str.isalnum], the full lower-case mapping and
    the two properties of the Final_Sigma rule of [str.lower]. *)
Record UnicodeData := {
  ucd_isspace : N -> bool;
  ucd_isalnum : N -> bool;
  ucd_tolower_full : N -> list N;
  ucd_iscased : N -> bool;
  ucd_iscaseignorable : N -> bool
}.

Definition in_range (lo hi c : N) : bool := (lo <=? c) && (c <=? hi).

(** ASCII white space: TAB, LF, VT, FF, CR, FS, GS, RS, US, SPACE. *)
Definition ascii_isspace (c : N) : bool :=
  in_range 9 13 c || in_range 28 32 c.

Definition ascii_isalnum (c : N) : bool :=
  in_range 48 57 c || in_range 65 90 c || in_range 97 122 c.

Definition ascii_tolower (c : N) : N :=
  if in_range 65 90 c then c + 32 else c.

Definition CAPITAL_SIGMA : N := 931.     (* U+03A3 *)
Definition FINAL_SIGMA : N := 962.       (* U+03C2 *)
Definition SMALL_SIGMA : N := 963.       (* U+03C3 *)

Section Strings.
Variable U : UnicodeData.

Definition isspace (c : N) : bool :=
  if c <? 128 then ascii_isspace c else ucd_isspace U c.

Definition isalnum (c : N) : bool :=
  if c <? 128 then ascii_isalnum c else ucd_isalnum U c.

(** The class [\w] of a [str] pattern: alphanumerics and the underscore. *)
Definition is_word (c : N) : bool := isalnum c || (c =? 95).

Definition tolower_full (c : N) : list N :=
  if c <? 128 then [ascii_tolower c] else ucd_tolower_full U c.

(** *** [str.strip()] *)

Definition lstrip (s : str) : str := drop_while isspace s.
Definition rstrip (s : str) : str := reverse (drop_while isspace (reverse s)).
Definition strip (s : str) : str := rstrip (lstrip s).

(** *** [str.lower()] *)

(** U+03A3 lowers to the final sigma when it follows a cased letter and
    is not followed by one, case-ignorable characters being skipped on
    both sides. [before] is the text to the left, nearest character
    first. *)
Definition handle_capital_sigma (before after : str) : N :=
  let final_sigma :=
    match drop_while (ucd_iscaseignorable U) before with
    | c :: _ =>
        ucd_iscased U c &&
        match drop_while (ucd_iscaseignorable U) after with
        | [] => true
        | d :: _ => negb (ucd_iscased U d)
        end
    | [] => false
    end in
  if final_sigma then FINAL_SIGMA else SMALL_SIGMA.

Fixpoint lower_from (before s : str) : str :=
  match s with
  | [] => []
  | c :: rest =>
      (if c =? CAPITAL_SIGMA then [handle_capital_sigma before rest]
       else tolower_full c) ++ lower_from (c :: before) rest
  end.

Definition lower (s : str) : str := lower_from [] s.

(** A character [str.lower] leaves alone wherever it stands. *)
Definition lower_fixed (c : N) : Prop :=
  c <> CAPITAL_SIGMA /\ tolower_full c = [c].

(** *** [token_pattern = re.compile(r"\b\w+\b", re.UNICODE)] *)

Definition is_word_opt (o : option N) : bool :=
  match o with Some c => is_word c | None => false end.

(** [\b] between a character [prev] and a character [next] (absent at
    the ends of the text). *)
Definition word_boundary (prev next : option N) : bool :=
  xorb (is_word_opt prev) (is_word_opt next).

(** [\w+\b] with [\w+] greedy: the longest candidate of [k] characters
    first, then shorter ones. *)
Fixpoint backtrack (s : str) (k : nat) : option (str * str) :=
  match k with
  | O => None
  | S k' =>
      if word_boundary (last (take k s)) (head (drop k s))
      then Some (take k s, drop k s)
      else backtrack s k'
  end.

(** One attempt of the pattern at the current position. *)
Definition match_token (prev : option N) (s : str) : option (str * str) :=
  if word_boundary prev (head s)
  then backtrack s (length (take_while is_word s))
  else None.

(** The scan of [findall]: after a match resume behind it, otherwise
    advance by one character. *)
Fixpoint findall_scan (fuel : nat) (prev : option N) (s : str) : list str :=
  match fuel with
  | O => []
  | S fuel' =>
      match match_token prev s with
      | Some (tok, rest) => tok :: findall_scan fuel' (last tok) rest
      | None =>
          match s with
          | [] => []
          | c :: s' => findall_scan fuel' (Some c) s'
          end
      end
  end.

Definition token_pattern_findall (s : str) : list str :=
  findall_scan (S (length s)) None s.

(** The text split at every non-word character. *)
Definition split_nonword (s : str) : list str :=
  split_on (fun c => negb (is_word c)) s.

(** The non-empty pieces of the text split at its non-word characters. *)
Definition word_pieces (s : str) : list str :=
  List.filter nonempty (split_nonword s).

(** ** [ProcessedQuestion] and [QuestionProcessor.preprocess] *)

Record ProcessedQuestion := {
  original : str;
  lowered : str;
  tokens : list str;
  processed_text : str
}.

Definition preprocess (question : str) : ProcessedQuestion :=
  let cleaned := strip question in
  let lowered := lower cleaned in
  let tokens := token_pattern_findall lowered in
  let processed_text := join (py " ") tokens in
  {| original := cleaned;
     lowered := lowered;
     tokens := tokens;
     processed_text := processed_text |}.

(** The properties of the character database the normalizer relies on;
    they hold of the Unicode database. *)
Record UnicodeLaws : Prop := {
  word_not_space : forall c, is_word c = true -> isspace c = false;
  lower_stable : forall c d, d ∈ tolower_full c -> lower_fixed d;
  sigma_stable : lower_fixed FINAL_SIGMA /\ lower_fixed SMALL_SIGMA;
  lower_keeps_word :
    forall c, is_word c = true ->
      exists d, d ∈ tolower_full c /\ is_word d = true;
  lower_keeps_nonword :
    forall c d, is_word c = false -> d ∈ tolower_full c ->
      is_word d = false;
  sigma_word :
    is_word CAPITAL_SIGMA = true /\ is_word FINAL_SIGMA = true /\
    is_word SMALL_SIGMA = true
}.

End Strings.

(** A fragment of the character database: Latin-1, the dotted capital I
    and the Greek sigmas. *)
Definition latin1_upper (c : N) : bool :=
  in_range 192 214 c || in_range 216 222 c.

Definition sample_ucd : UnicodeData := {|
  ucd_isspace := fun c =>
    (c =? 133) || (c =? 160) || (c =? 8232) || (c =? 8233) || (c =? 12288);
  ucd_isalnum := fun c =>
    (c =? 170) || (c =? 181) || (c =? 186) || in_range 192 214 c ||
    in_range 216 246 c || in_range 248 255 c || (c =? 304) ||
    in_range 962 963 c || (c =? 931);
  ucd_tolower_full := fun c =>
    if latin1_upper c then [c + 32]
    else if c =? 304 then [105; 775]
    else if c =? 931 then [963]
    else [c];
  ucd_iscased := fun c =>
    in_range 65 90 c || in_range 97 122 c || in_range 192 214 c ||
    in_range 216 246 c || in_range 248 255 c || (c =? 304) ||
    in_range 962 963 c || (c =? 931);
  ucd_iscaseignorable := fun c =>
    (c =? 39) || (c =? 46) || (c =? 58) || (c =? 94) || (c =? 96) ||
    (c =? 168) || (c =? 173) || (c =? 175) || (c =? 180) || (c =? 183) ||
    (c =? 184) || (c =? 775)
|}.

(** ** Exceptions *)

(** An instance of [Exception]: its class and [str(exc)]. *)
Record exception := {
  exc_class : string;
  exc_message : str
}.

Inductive result (A : Type) : Type :=
| Return (a : A)
| Raise (e : exception).
Arguments Return {A} a.
Arguments Raise {A} e.

Definition bind {A B} (r : result A) (k : A -> result B) : result B :=
  match r with
  | Return a => k a
  | Raise e => Raise e
  end.

(** [try: body except Exception as exc: handler(exc)] *)
Definition try_except {A} (body : result A) (handler : exception -> result A)
  : result A :=
  match body with
  | Return a => Return a
  | Raise e => handler e
  end.

Notation "x <- r ;; k" := (bind r (fun x => k))
  (at level 100, r at next level, right associativity).

Definition IndexError : exception :=
  {| exc_class := "IndexError"; exc_message := py "list index out of range" |}.

Definition AttributeError (type_name attr : string) : exception :=
  {| exc_class := "AttributeError";
     exc_message := py "'" ++ py type_name ++ py "' object has no attribute '"
                    ++ py attr ++ py "'" |}.

Definition NoneType_not_callable : exception :=
  {| exc_class := "TypeError";
     exc_message := py "'NoneType' object is not callable" |}.

(** ** [str.splitlines()] *)

(** Line boundaries: LF, VT, FF, CR, FS, GS, RS, NEL, LS, PS. *)
Definition is_linebreak (c : N) : bool :=
  in_range 10 13 c || in_range 28 30 c ||
  (c =? 133) || (c =? 8232) || (c =? 8233).

(** [cur] holds the current line, last character first. A CR LF pair is
    one boundary; a final boundary opens no further line. *)
Fixpoint splitlines_from (cur s : str) : list str :=
  match s with
  | [] => match cur with [] => [] | _ :: _ => [reverse cur] end
  | c :: s' =>
      if is_linebreak c then
        reverse cur ::
        match s' with
        | d :: s'' =>
            if (c =? 13) && (d =? 10) then splitlines_from [] s''
            else splitlines_from [] s'
        | [] => []
        end
      else splitlines_from (c :: cur) s'
  end.

Definition splitlines (s : str) : list str := splitlines_from [] s.

(** ** [textwrap.dedent] *)

Definition is_blank (c : N) : bool := (c =? 32) || (c =? 9).

Definition is_lf (c : N) : bool := c =? 10.

(** The implementation by regular expressions, line by line (a line ends
    at a line feed).

    [_whitespace_only_re.sub('', text)], on one line: a line made of
    spaces and tabs only becomes empty. *)
Definition whitespace_only_sub (line : str) : str :=
  if forallb is_blank line then [] else line.

(** [_leading_whitespace_re], on one line: the leading spaces and tabs of
    a line that has another character. *)
Definition leading_whitespace (line : str) : option str :=
  match drop_while is_blank line with
  | [] => None
  | _ :: _ => Some (take_while is_blank line)
  end.

Fixpoint common_prefix (a b : str) : str :=
  match a, b with
  | x :: a', y :: b' => if x =? y then x :: common_prefix a' b' else []
  | _, _ => []
  end.

(** One round of the loop over the indents. *)
Definition update_margin (margin : option str) (indent : str) : option str :=
  match margin with
  | None => Some indent
  | Some m =>
      if starts_with indent m then Some m
      else if starts_with m indent then Some indent
      else Some (common_prefix m indent)
  end.

(** [re.sub(r'(?m)^' + margin, '', text)], on one line. *)
Definition remove_margin (margin line : str) : str :=
  if starts_with line margin then drop (length margin) line else line.

Definition dedent_margin (lines : list str) : option str :=
  fold_left update_margin (omap leading_whitespace lines) None.

Definition dedent (text : str) : str :=
  let lines := map whitespace_only_sub (split_on is_lf text) in
  match dedent_margin lines with
  | Some (c :: m) => join nl (map (remove_margin (c :: m)) lines)
  | _ => join nl lines
  end.

Definition indent12 : str := py "            ".

(** ** The client, the service and the JSON endpoint *)

(** The JSON values [request.get_json] produces. *)
#[warnings="-register-all"]
Inductive json :=
| JNull
| JBool (b : bool)
| JInt (z : Z)
| JFloat (q : Q)
| JString (s : str)
| JArray (items : list json)
| JObject (fields : list (str * json)).

Definition json_truthy (j : json) : bool :=
  match j with
  | JNull => false
  | JBool b => b
  | JInt z => negb (z =? 0)%Z
  | JFloat q => negb (Qeq_bool q 0)
  | JString s => nonempty s
  | JArray items => match items with [] => false | _ => true end
  | JObject fields => match fields with [] => false | _ => true end
  end.

Definition type_name (j : json) : string :=
  match j with
  | JNull => "NoneType"
  | JBool _ => "bool"
  | JInt _ => "int"
  | JFloat _ => "float"
  | JString _ => "str"
  | JArray _ => "list"
  | JObject _ => "dict"
  end.

(** [d.get(key)] on the fields of a dict. *)
Fixpoint dict_get (fields : list (str * json)) (key : str) : option json :=
  match fields with
  | [] => None
  | (k, v) :: rest => if decide (k = key) then Some v else dict_get rest key
  end.

Record response := {
  status : N;
  body : json
}.

Section Core.
Variable U : UnicodeData.
(** The type of Python floats. *)
Context {F : Type}.

(** *** [LLMClient] *)

Record LLMClient := {
  model : str;
  api_key : option str;
  api_base : option str;
  temperature : F
}.

Section Construction.
(** [float(x)] on a string: the float, or the [ValueError] raised. *)
Variable float_of_str : str -> result F.
(** [os.environ] *)
Variable environ : gmap string str.

Definition getenv (name : string) : option str := environ !! name.

(** [LLMClient.__init__]; [temperature] has the default [0.2] at the
    call sites that omit it. *)
Definition LLMClient_init (model api_key api_base : option str)
    (temperature : F) : result LLMClient :=
  let model :=
    if truthy model then default [] model
    else default (py "gpt-4o-mini") (getenv "LLM_MODEL") in
  let api_key :=
    py_or (py_or api_key (getenv "OPENAI_API_KEY")) (getenv "LLM_API_KEY") in
  let api_base := py_or api_base (getenv "OPENAI_BASE_URL") in
  temperature <-
    match getenv "LLM_TEMPERATURE" with
    | Some raw => float_of_str raw
    | None => Return temperature
    end;;
  Return {| model := model; api_key := api_key;
            api_base := api_base; temperature := temperature |}.
End Construction.

(** What the provider library is asked: the arguments of [OpenAI(...)]
    and of [client.responses.create(...)], [req_input] being the content
    of the single user message. *)
Record provider_request := {
  req_api_key : option str;
  req_base_url : option str;
  req_model : str;
  req_input : str;
  req_temperature : F
}.

(** A block of [response.output]: [None] without a [text] attribute,
    [Some None] when [text] has no [value]. *)
Record output_block := {
  block_text : option (option str)
}.

(** The provider library: [None] when the import failed, otherwise
    what a call answers or raises. *)
Record Runtime := {
  OpenAI : option (provider_request -> result (list output_block))
}.

Variable rt : Runtime.

Definition is_configured (self : LLMClient) : bool :=
  truthy (api_key self) &&
  match OpenAI rt with Some _ => true | None => false end.

Definition offline_template (preview : str) : str :=
  join nl [
    [];
    indent12 ++ py "[Offline Response]";
    indent12 ++ py "Unable to reach the configured LLM provider. Please verify that an API key";
    indent12 ++ py "is available (set OPENAI_API_KEY or LLM_API_KEY). Last prompt line:";
    indent12 ++ dquote ++ preview ++ py "..." ++ dquote;
    indent12 ].

Definition _offline_response (prompt : str) : result str :=
  match last (splitlines prompt) with
  | None => Raise IndexError
  | Some preview =>
      Return (strip U (dedent (offline_template (take 120 preview))))
  end.

Definition text_chunk (block : output_block) : option str :=
  match block_text block with
  | Some (Some value) => if nonempty value then Some value else None
  | _ => None
  end.

Definition generate_response (self : LLMClient) (prompt : str) : result str :=
  if negb (is_configured self) then _offline_response prompt
  else
    try_except
      (match OpenAI rt with
       | None => Raise NoneType_not_callable
       | Some create =>
           output <- create {| req_api_key := api_key self;
                               req_base_url := api_base self;
                               req_model := model self;
                               req_input := prompt;
                               req_temperature := temperature self |};;
           let text_chunks := omap text_chunk output in
           let answer := strip U (join nl text_chunks) in
           if nonempty answer then Return answer
           else _offline_response prompt
       end)
      (fun exc =>
         Return (py "[LLM Error] Unable to fetch response: " ++ exc_message exc)).

(** *** [LLMQAService] *)

Record LLMQAService := {
  client : LLMClient
}.

Definition prompt_template (original processed_text : str) : str :=
  join nl [
    [];
    indent12 ++ py "You are a helpful university-level teaching assistant. Answer the user's";
    indent12 ++ py "question clearly and concisely. Cite key facts when appropriate and";
    indent12 ++ py "mention assumptions if the question lacks detail.";
    [];
    indent12 ++ py "Original question: " ++ original;
    indent12 ++ py "Normalized question: " ++ processed_text;
    [];
    indent12 ++ py "Answer:";
    indent12 ].

Definition build_prompt (processed : ProcessedQuestion) : str :=
  strip U (dedent (prompt_template (original processed) (processed_text processed))).

Record AnswerResult := {
  original_question : str;
  processed_question : str;
  result_tokens : list str;
  prompt : str;
  answer : str
}.

Definition answer_question (self : LLMQAService) (question : str)
  : result AnswerResult :=
  let processed := preprocess U question in
  let prompt := build_prompt processed in
  answer <- generate_response (client self) prompt;;
  Return {| original_question := original processed;
            processed_question := processed_text processed;
            result_tokens := tokens processed;
            prompt := prompt;
            answer := answer |}.

(** *** [api_ask], the handler of [POST /api/ask] *)

Variable qa_service : LLMQAService.

Definition error_response : response :=
  {| status := 400;
     body := JObject [(py "error", JString (py "Question is required."))] |}.

Definition answer_response (question : str) (r : AnswerResult) : response :=
  {| status := 200;
     body := JObject [
       (py "question", JString question);
       (py "processed_question", JString (processed_question r));
       (py "tokens", JArray (map JString (result_tokens r)));
       (py "answer", JString (answer r)) ] |}.

(** [parsed] is [request.get_json(silent=True)]: [None] when the body
    is not JSON. An exception that leaves the handler is answered by
    the framework with status 500. *)
Definition api_ask (parsed : option json) : result response :=
  let data :=
    match parsed with
    | Some j => if json_truthy j then j else JObject []
    | None => JObject []
    end in
  value <-
    match data with
    | JObject fields => Return (dict_get fields (py "question"))
    | other => Raise (AttributeError (type_name other) "get")
    end;;
  let value :=
    match value with
    | Some j => if json_truthy j then j else JString []
    | None => JString []
    end in
  question <-
    match value with
    | JString s => Return (strip U s)
    | other => Raise (AttributeError (type_name other) "strip")
    end;;
  if negb (nonempty question) then Return error_response
  else
    r <- answer_question qa_service question;;
    Return (answer_response question r).

End Core.

Arguments LLMClient : clear implicits.
Arguments Runtime : clear implicits.
Arguments LLMQAService : clear implicits.
Arguments provider_request : clear implicits.

(** ** The shape of the templates *)

(** A template line: [None] is an empty line, [Some l] the line [l]
    behind the indentation [margin]. *)
Definition indented (margin : str) (line : option str) : str :=
  match line with
  | Some l => margin ++ l
  | None => []
  end.

(** A template line once the white-space-only lines are emptied. *)
Definition emptied (margin : str) (line : option str) : str :=
  match line with
  | Some (c :: r) => margin ++ c :: r
  | _ => []
  end.

(** A line the interpolation cannot break or indent further: no line feed
    in it and no space or tab at its start. *)
Definition single_line (l : str) : Prop :=
  forallb (fun c => negb (is_lf c)) l = true /\
  forall c, head l = Some c -> is_blank c = false.

(** The characters other than spaces and tabs. *)
Definition unblank (s : str) : str :=
  List.filter (fun c => negb (is_blank c)) s.

(** The lines of the offline message, as they read once dedented. *)
Definition offline_lines (preview : str) : list (option str) := [
  Some (py "[Offline Response]");
  Some (py "Unable to reach the configured LLM provider. Please verify that an API key");
  Some (py "is available (set OPENAI_API_KEY or LLM_API_KEY). Last prompt line:");
  Some (dquote ++ preview ++ py "..." ++ dquote) ].

Definition offline_message (preview : str) : str :=
  join nl (map (default []) (offline_lines preview)).

(** The lines of the prompt, as they read once dedented, for a question
    that fits on one line. *)
Definition prompt_lines (original processed_text : str) : list (option str) := [
  Some (py "You are a helpful university-level teaching assistant. Answer the user's");
  Some (py "question clearly and concisely. Cite key facts when appropriate and");
  Some (py "mention assumptions if the question lacks detail.");
  None;
  Some (py "Original question: " ++ original);
  Some (py "Normalized question: " ++ processed_text);
  None;
  Some (py "Answer:") ].

Definition prompt_message (original processed_text : str) : str :=
  join nl (map (default []) (prompt_lines original processed_text)).

(** A template: an empty first line, the lines behind the indentation of
    the source, and the indentation before the closing quotes. *)
Definition template (lines : list (option str)) : str :=
  join nl (map (indented indent12) (None :: lines ++ [Some []])).

(** [s] occurs in [t]. *)
Definition substring (s t : str) : Prop :=
  exists pre post, t = pre ++ s ++ post.

Definition no_lf (s : str) : Prop :=
  forallb (fun c => negb (is_lf c)) s = true.

(** ** The front ends: the form page of [app.py] and the command line *)

Inductive http_method := GET | POST.

(** The context [index] hands to [render_template]. *)
Record index_context := {
  ctx_question : str;
  ctx_processed_question : str;
  ctx_tokens : list str;
  ctx_answer : str;
  ctx_error : str
}.

(** [request.form.get(key, default)] with the empty string as default:
    the first value sent for the key. *)
Fixpoint form_get (form : list (str * str)) (key : str) : str :=
  match form with
  | [] => []
  | (k, v) :: rest => if decide (k = key) then v else form_get rest key
  end.

Fixpoint uint_digits (d : Decimal.uint) : str :=
  match d with
  | Decimal.Nil => []
  | Decimal.D0 d => 48 :: uint_digits d
  | Decimal.D1 d => 49 :: uint_digits d
  | Decimal.D2 d => 50 :: uint_digits d
  | Decimal.D3 d => 51 :: uint_digits d
  | Decimal.D4 d => 52 :: uint_digits d
  | Decimal.D5 d => 53 :: uint_digits d
  | Decimal.D6 d => 54 :: uint_digits d
  | Decimal.D7 d => 55 :: uint_digits d
  | Decimal.D8 d => 56 :: uint_digits d
  | Decimal.D9 d => 57 :: uint_digits d
  end.

(** [str(n)] for a length. *)
Definition str_of_nat (n : nat) : str := uint_digits (Nat.to_uint n).

(** The preview of [render_result]: the first ten tokens, and a marker
    when there are more. *)
Definition tokens_preview (tokens : list str) : str :=
  let preview := join (py ", ") (take 10 tokens) in
  if (10 <? length tokens)%nat then preview ++ py ", ..." else preview.

(** What the terminal gives to one call of [input]: a line, or the
    interrupt key. The end of the list is the end of the input. *)
Inductive input_event :=
| Line (text : str)
| Interrupt.

Definition banner : str :=
  py "LLM Q&A CLI " ++ [8212] ++ py " type 'exit' or 'quit' to stop." ++ nl.

(** The arguments as [parse_args] returns them. *)
Record Namespace {F : Type} := {
  arg_question : option str;
  arg_model : option str;
  arg_temperature : option F
}.
Arguments Namespace : clear implicits.

Section FrontEnds.
Variable U : UnicodeData.
Context {F : Type}.
Variable rt : Runtime F.

(** *** [index], up to the rendering of the template *)

Definition index (qa_service : LLMQAService F) (method : http_method)
    (form : list (str * str)) : result index_context :=
  let context :=
    {| ctx_question := []; ctx_processed_question := []; ctx_tokens := [];
       ctx_answer := []; ctx_error := [] |} in
  match method with
  | GET => Return context
  | POST =>
      let question := strip U (form_get form (py "question")) in
      if negb (nonempty question)
      then Return {| ctx_question := question;
                     ctx_processed_question := []; ctx_tokens := [];
                     ctx_answer := [];
                     ctx_error := py "Please enter a question." |}
      else
        r <- answer_question U rt qa_service question;;
        Return {| ctx_question := question;
                  ctx_processed_question := processed_question r;
                  ctx_tokens := result_tokens r;
                  ctx_answer := answer r;
                  ctx_error := [] |}
  end.

(** *** [render_result] *)

Definition render_result (r : AnswerResult) : str :=
  nl ++ py "Processed question: " ++ processed_question r ++ nl ++
  py "Tokens (" ++ str_of_nat (length (result_tokens r)) ++ py "): " ++
  tokens_preview (result_tokens r) ++ nl ++
  py "Answer:" ++ nl ++ answer r ++ nl.

(** *** [interactive_loop] *)

Definition is_sentinel (question : str) : bool :=
  bool_decide (lower U question = py "exit") ||
  bool_decide (lower U question = py "quit").

(** The loop after the banner, as the list of what it writes: the prompt
    of each [input] and the text of each [print] with its line end. *)
Fixpoint interactive_rounds (service : LLMQAService F)
    (inputs : list input_event) : result (list str) :=
  match inputs with
  | [] => Return [py "Q> "; nl ++ py "Exiting." ++ nl]
  | Interrupt :: _ => Return [py "Q> "; nl ++ py "Exiting." ++ nl]
  | Line text :: rest =>
      let question := strip U text in
      if negb (nonempty question) then
        out <- interactive_rounds service rest;;
        Return (py "Q> " :: out)
      else if is_sentinel question then
        Return [py "Q> "; py "Goodbye." ++ nl]
      else
        r <- answer_question U rt service question;;
        out <- interactive_rounds service rest;;
        Return (py "Q> " :: (render_result r ++ nl) :: out)
  end.

Definition interactive_loop (service : LLMQAService F)
    (inputs : list input_event) : result (list str) :=
  out <- interactive_rounds service inputs;;
  Return ((banner ++ nl) :: out).

(** *** [main], from the parsed arguments on *)

(** [float(x)] on a string. *)
Variable float_of_str : str -> result F.
(** [os.environ] *)
Variable environ : gmap string str.
(** Truthiness of a float (zero is falsy) and the float [0.2]. *)
Variable float_truthy : F -> bool.
Variable default_temperature : F.

(** The exit status and what was written. *)
Definition main (args : Namespace F) (inputs : list input_event)
    : result (Z * list str) :=
  let temperature :=
    match arg_temperature args with
    | Some t => if float_truthy t then t else default_temperature
    | None => default_temperature
    end in
  client <- LLMClient_init float_of_str environ (arg_model args) None None
              temperature;;
  let service := {| client := client |} in
  if truthy (arg_question args) then
    r <- answer_question U rt service (default [] (arg_question args));;
    Return (0%Z, [render_result r ++ nl])
  else
    out <- interactive_loop service inputs;;
    Return (0%Z, out).

End FrontEnds.

(** ** Concrete instances, for running the model *)

Definition ValueError : exception :=
  {| exc_class := "ValueError";
     exc_message := py "could not convert string to float" |}.

Fixpoint digits_value (acc : N) (s : str) : option N :=
  match s with
  | [] => Some acc
  | c :: s' =>
      if in_range 48 57 c then digits_value (10 * acc + (c - 48)) s' else None
  end.

Definition pow10 (k : nat) : positive := Nat.iter k (Pos.mul 10) 1%positive.

(** A stand-in for [float] on strings, with floats as rationals: exact on
    the plain decimal literals [digits.digits], [ValueError] elsewhere. *)
Definition decimal_float_of_str (s : str) : result Q :=
  match drop_while (in_range 48 57) s with
  | 46 :: frac =>
      match digits_value 0 (take_while (in_range 48 57) s ++ frac) with
      | Some n =>
          if nonempty (take_while (in_range 48 57) s ++ frac)
          then Return (Z.of_N n # pow10 (length frac))
          else Raise ValueError
      | None => Raise ValueError
      end
  | _ => Raise ValueError
  end.

(** No provider library installed. *)
Definition offline_runtime : Runtime Q := {| OpenAI := None |}.

(** A provider whose every call raises [exc]. *)
Definition failing_runtime (exc : exception) : Runtime Q :=
  {| OpenAI := Some (fun _ => Raise exc) |}.

(** A provider whose every call answers with the blocks [output]. *)
Definition answering_runtime (output : list output_block) : Runtime Q :=
  {| OpenAI := Some (fun _ => Return output) |}.

Definition sample_client (key : option str) : LLMClient Q :=
  {| model := py "gpt-4o-mini"; api_key := key; api_base := None;
     temperature := (2 # 10)%Q |}.

Definition sample_service (key : option str) : LLMQAService Q :=
  {| client := sample_client key |}.

(** * Properties *)

Example preprocess_what_is_nlp :
  preprocess sample_ucd (py "  What is NLP? ") =
  {| original := py "What is NLP?";
     lowered := py "what is nlp?";
     tokens := [py "what"; py "is"; py "nlp"];
     processed_text := py "what is nlp" |}.
Proof. vm_compute. reflexivity. Qed.

Example lower_final_sigma :
  lower sample_ucd [97; 931; 32; 931; 98; 304] = [97; 962; 32; 963; 98; 105; 775].
Proof. vm_compute. reflexivity. Qed.

(** ** Lists of characters *)

Lemma take_drop_while (P : N -> bool) (s : str) :
  take_while P s ++ drop_while P s = s.
Proof.
  induction s as [|c s IH]; simpl; [reflexivity|].
  destruct (P c); simpl; [now rewrite IH | reflexivity].
Qed.

Lemma take_while_all (P : N -> bool) (s : str) :
  forallb P (take_while P s) = true.
Proof.
  induction s as [|c s IH]; simpl; [reflexivity|].
  destruct (P c) eqn:E; simpl; [now rewrite E | reflexivity].
Qed.

Lemma drop_while_head (P : N -> bool) (s : str) c r :
  drop_while P s = c :: r -> P c = false.
Proof.
  induction s as [|d s IH]; simpl; [discriminate|].
  destruct (P d) eqn:E; [exact IH|].
  intros H; injection H as -> _; exact E.
Qed.

Lemma drop_while_id (P : N -> bool) (s : str) :
  (forall c, head s = Some c -> P c = false) -> drop_while P s = s.
Proof.
  destruct s as [|d s]; simpl; [reflexivity|].
  intros H. now rewrite (H d eq_refl).
Qed.

Lemma take_while_app_stop (P : N -> bool) (a : str) c r :
  forallb P a = true -> P c = false ->
  take_while P (a ++ c :: r) = a /\ drop_while P (a ++ c :: r) = c :: r.
Proof.
  intros Ha Hc. induction a as [|x a IH]; simpl in *.
  - now rewrite Hc.
  - apply andb_prop in Ha as [Hx Ha]. rewrite Hx.
    destruct (IH Ha) as [-> ->]. now split.
Qed.


Lemma forallb_elem (P : N -> bool) (s : str) :
  forallb P s = true <-> (forall c, c ∈ s -> P c = true).
Proof.
  rewrite forallb_forall. split; intros H c Hc; apply H;
    now apply list_elem_of_In.
Qed.

(** ** Splitting *)

Lemma split_on_cons (sep : N -> bool) (s : str) :
  exists w ws, split_on sep s = w :: ws.
Proof.
  induction s as [|c s (w & ws & IH)]; simpl; [now eexists _, _|].
  destruct (sep c); [now eexists _, _|]. rewrite IH. now eexists _, _.
Qed.

Lemma split_on_free (sep : N -> bool) (a : str) :
  forallb (fun c => negb (sep c)) a = true -> split_on sep a = [a].
Proof.
  induction a as [|x a IH]; simpl; [reflexivity|].
  intros H. apply andb_prop in H as [Hx Ha].
  destruct (sep x); [discriminate|]. now rewrite (IH Ha).
Qed.

Lemma split_on_app (sep : N -> bool) (a : str) c (r : str) :
  forallb (fun c => negb (sep c)) a = true -> sep c = true ->
  split_on sep (a ++ c :: r) = a :: split_on sep r.
Proof.
  intros Ha Hc. induction a as [|x a IH]; simpl in *.
  - now rewrite Hc.
  - apply andb_prop in Ha as [Hx Ha].
    destruct (sep x); [discriminate|]. now rewrite (IH Ha).
Qed.

Lemma split_on_pieces (sep : N -> bool) (s w : str) :
  w ∈ split_on sep s -> forall c, c ∈ w -> sep c = false /\ c ∈ s.
Proof.
  revert w. induction s as [|x s IH]; simpl; intros w Hw c Hc.
  - apply list_elem_of_singleton in Hw. subst w. inversion Hc.
  - destruct (sep x) eqn:Ex.
    + apply elem_of_cons in Hw as [-> | Hw]; [inversion Hc|].
      destruct (IH w Hw c Hc). split; [easy | now right].
    + destruct (split_on sep s) as [|w0 ws] eqn:Es.
      * apply list_elem_of_singleton in Hw. subst w.
        apply list_elem_of_singleton in Hc. subst c. split; [easy | left].
      * apply elem_of_cons in Hw as [-> | Hw].
        -- apply elem_of_cons in Hc as [-> | Hc]; [split; [easy | left]|].
           destruct (IH w0 (list_elem_of_here _ _) c Hc).
           split; [easy | now right].
        -- destruct (IH w (list_elem_of_further _ _ _ Hw) c Hc).
           split; [easy | now right].
Qed.

Lemma join_split_on (s : str) : join nl (split_on is_lf s) = s.
Proof.
  induction s as [|c s IH]; simpl; [reflexivity|].
  destruct (split_on_cons is_lf s) as (w & ws & E). rewrite E in *.
  unfold is_lf at 1. destruct (c =? 10) eqn:Ec.
  - apply N.eqb_eq in Ec. subst c.
    change (join nl ([] :: w :: ws)) with ([] ++ nl ++ join nl (w :: ws)).
    now rewrite IH.
  - destruct ws; simpl in *; now rewrite <- IH.
Qed.

Lemma filter_sublist_of (f : str -> bool) (l : list str) :
  sublist (List.filter f l) l.
Proof.
  induction l as [|x l IH]; simpl; [constructor|].
  destruct (f x); now constructor.
Qed.

Section Tokens.
Variable U : UnicodeData.

Lemma word_pieces_skip c s :
  is_word U c = false -> word_pieces U (c :: s) = word_pieces U s.
Proof.
  intros Hc. unfold word_pieces, split_nonword. simpl. now rewrite Hc.
Qed.

Lemma all_word_free (a : str) :
  forallb (is_word U) a = true ->
  forallb (fun c => negb (negb (is_word U c))) a = true.
Proof.
  induction a as [|x a IH]; simpl; [reflexivity|].
  rewrite negb_involutive. intros H. apply andb_prop in H as [-> H].
  now rewrite IH.
Qed.

Lemma word_pieces_run (a : str) c (r : str) :
  a <> [] -> forallb (is_word U) a = true -> is_word U c = false ->
  word_pieces U (a ++ c :: r) = a :: word_pieces U r.
Proof.
  intros Hne Ha Hc. unfold word_pieces, split_nonword.
  rewrite split_on_app; [| now apply all_word_free | now rewrite Hc].
  simpl. destruct a; [contradiction | reflexivity].
Qed.

Lemma word_pieces_last (a : str) :
  a <> [] -> forallb (is_word U) a = true -> word_pieces U a = [a].
Proof.
  intros Hne Ha. unfold word_pieces, split_nonword.
  rewrite split_on_free; [| now apply all_word_free].
  simpl. destruct a; [contradiction | reflexivity].
Qed.

Lemma word_pieces_spec (s w : str) :
  w ∈ word_pieces U s ->
  w <> [] /\ forall c, c ∈ w -> is_word U c = true /\ c ∈ s.
Proof.
  unfold word_pieces. rewrite list_elem_of_In, filter_In, <- list_elem_of_In.
  intros [Hw Hne]. split; [now destruct w|].
  intros c Hc. destruct (split_on_pieces _ _ _ Hw c Hc) as [Hs Hin].
  split; [now apply negb_false_iff in Hs | exact Hin].
Qed.

Lemma word_pieces_nonempty (s : str) :
  word_pieces U s <> [] <-> exists c, c ∈ s /\ is_word U c = true.
Proof.
  split.
  - destruct (word_pieces U s) as [|w ws] eqn:E; [congruence|]. intros _.
    destruct (word_pieces_spec s w) as [Hne Hw]; [rewrite E; left|].
    destruct w as [|c w]; [congruence|].
    exists c. destruct (Hw c); [left | now split].
  - intros (c & Hc & Hw). induction s as [|x s IH]; [inversion Hc|].
    destruct (is_word U x) eqn:Ex.
    + pose proof (take_drop_while (is_word U) (x :: s)) as Hs.
      pose proof (take_while_all (is_word U) (x :: s)) as Ha.
      assert (Hne : take_while (is_word U) (x :: s) <> [])
        by (simpl; now rewrite Ex).
      destruct (drop_while (is_word U) (x :: s)) as [|d r] eqn:Ed.
      * rewrite app_nil_r in Hs. rewrite <- Hs.
        now rewrite word_pieces_last.
      * rewrite <- Hs. rewrite word_pieces_run; try easy.
        eapply drop_while_head, Ed.
    + rewrite word_pieces_skip by easy. apply IH.
      apply elem_of_cons in Hc as [-> | Hc]; [congruence | easy].
Qed.

(** *** The pattern finds exactly the word pieces *)

Lemma last_word_run (a : str) :
  a <> [] -> forallb (is_word U) a = true -> is_word_opt U (last a) = true.
Proof.
  intros Hne Ha. destruct (last a) as [x|] eqn:El.
  - simpl. eapply forallb_elem; [exact Ha|]. now apply last_Some_elem_of.
  - apply last_None in El. contradiction.
Qed.

Lemma backtrack_run (a : str) c (r : str) :
  a <> [] -> forallb (is_word U) a = true -> is_word U c = false ->
  backtrack U (a ++ c :: r) (length a) = Some (a, c :: r).
Proof.
  intros Hne Ha Hc. destruct (length a) as [|k] eqn:Ek.
  { destruct a; [contradiction | discriminate]. }
  simpl backtrack. rewrite <- Ek.
  rewrite take_app_length, drop_app_length. simpl head.
  pose proof (last_word_run a Hne Ha) as Hl.
  unfold word_boundary. rewrite Hl. simpl. now rewrite Hc.
Qed.

Lemma backtrack_end (a : str) :
  a <> [] -> forallb (is_word U) a = true ->
  backtrack U a (length a) = Some (a, []).
Proof.
  intros Hne Ha. destruct (length a) as [|k] eqn:Ek.
  { destruct a; [contradiction | discriminate]. }
  simpl backtrack. rewrite <- Ek.
  rewrite firstn_all, skipn_all. simpl head.
  pose proof (last_word_run a Hne Ha) as Hl.
  unfold word_boundary. now rewrite Hl.
Qed.

(** The scan is in one of two situations: outside a word ([prev] is not a
    word character), or just behind a match ([prev] ends a word and the
    text goes on with a non-word character or ends). *)
Lemma findall_scan_spec (fuel : nat) :
  (forall prev (s : str), is_word_opt U prev = false -> (length s < fuel)%nat ->
     findall_scan U fuel prev s = word_pieces U s) /\
  (forall prev (s : str), is_word_opt U prev = true -> (length s < fuel)%nat ->
     is_word_opt U (head s) = false ->
     findall_scan U fuel prev s = word_pieces U s).
Proof.
  induction fuel as [|fuel [IHout IHbehind]]; [split; intros; lia|].
  split.
  - intros prev s Hp Hlen. simpl findall_scan. unfold match_token, word_boundary.
    rewrite Hp. destruct s as [|c s]; [reflexivity|]. simpl head. simpl is_word_opt.
    destruct (is_word U c) eqn:Ec; simpl xorb; cbv iota.
    + pose proof (take_drop_while (is_word U) (c :: s)) as Hs.
      pose proof (take_while_all (is_word U) (c :: s)) as Ha.
      assert (Hne : take_while (is_word U) (c :: s) <> [])
        by (simpl; now rewrite Ec).
      assert (Hla : (length (take_while (is_word U) (c :: s)) +
                    length (drop_while (is_word U) (c :: s)) = length (c :: s))%nat)
        by (now rewrite <- length_app, Hs).
      destruct (drop_while (is_word U) (c :: s)) as [|d r] eqn:Ed.
      * rewrite app_nil_r in Hs. rewrite Hs in *.
        rewrite backtrack_end by easy.
        rewrite IHbehind; [now rewrite (word_pieces_last (c :: s))
                          | now apply last_word_run
                          | simpl in *; lia | reflexivity].
      * pose proof (drop_while_head _ _ _ _ Ed) as Hd.
        set (a := take_while (is_word U) (c :: s)) in *.
        rewrite <- Hs. rewrite backtrack_run by easy.
        rewrite word_pieces_run by easy.
        f_equal. rewrite IHbehind; [now rewrite word_pieces_skip
                          | now apply last_word_run | | simpl; exact Hd].
        simpl in *. destruct a; [contradiction|]. simpl in Hla. lia.
    + rewrite word_pieces_skip by easy.
      apply IHout; [simpl; exact Ec | simpl in Hlen; lia].
  - intros prev s Hp Hlen Hh. simpl findall_scan. unfold match_token, word_boundary.
    rewrite Hp, Hh. simpl xorb. cbv iota.
    destruct s as [|c s]; [reflexivity|]. simpl in Hh.
    simpl take_while. rewrite Hh. simpl.
    rewrite word_pieces_skip by easy.
    apply IHout; [simpl; exact Hh | simpl in Hlen; lia].
Qed.

Lemma token_pattern_findall_spec (s : str) :
  token_pattern_findall U s = word_pieces U s.
Proof.
  unfold token_pattern_findall.
  apply (proj1 (findall_scan_spec (S (length s)))); [reflexivity | lia].
Qed.

End Tokens.

(** ** [strip], [lower] and [join] *)

Section Normalizer.
Variable U : UnicodeData.

(** [strip] removes a run of white space at each end and nothing else. *)
Lemma strip_decompose (s : str) :
  exists a b, s = a ++ strip U s ++ b /\
    forallb (isspace U) a = true /\ forallb (isspace U) b = true.
Proof.
  exists (take_while (isspace U) s),
         (reverse (take_while (isspace U) (reverse (lstrip U s)))).
  split; [|split].
  - unfold strip, rstrip. rewrite <- reverse_app, take_drop_while.
    rewrite reverse_involutive. unfold lstrip. now rewrite take_drop_while.
  - apply take_while_all.
  - apply forallb_elem. intros c Hc. rewrite elem_of_reverse in Hc.
    revert c Hc. apply forallb_elem, take_while_all.
Qed.

Lemma strip_elem (s : str) c : c ∈ strip U s -> c ∈ s.
Proof.
  destruct (strip_decompose s) as (a & b & Hs & _). intros Hc.
  rewrite Hs, !elem_of_app. auto.
Qed.

Lemma strip_keeps (s : str) c :
  c ∈ s -> isspace U c = false -> c ∈ strip U s.
Proof.
  destruct (strip_decompose s) as (a & b & Hs & Ha & Hb). intros Hc Hsp.
  rewrite Hs, !elem_of_app in Hc. destruct Hc as [Hc | [Hc | Hc]]; [|easy|].
  - rewrite (proj1 (forallb_elem _ _) Ha c Hc) in Hsp. discriminate.
  - rewrite (proj1 (forallb_elem _ _) Hb c Hc) in Hsp. discriminate.
Qed.

Lemma strip_fixed (s : str) :
  (forall c, head s = Some c -> isspace U c = false) ->
  (forall c, last s = Some c -> isspace U c = false) ->
  strip U s = s.
Proof.
  intros Hh Hl. unfold strip, lstrip, rstrip.
  rewrite (drop_while_id _ s Hh).
  rewrite drop_while_id; [apply reverse_involutive|].
  intros c. rewrite head_reverse. apply Hl.
Qed.

Lemma join_elem (sep : str) (parts : list str) c :
  c ∈ join sep parts -> c ∈ sep \/ exists t, t ∈ parts /\ c ∈ t.
Proof.
  induction parts as [|x [|y rest] IH]; intros Hc.
  - inversion Hc.
  - right. exists x. split; [left | exact Hc].
  - change (join sep (x :: y :: rest)) with (x ++ sep ++ join sep (y :: rest)) in Hc.
    rewrite !elem_of_app in Hc. destruct Hc as [Hc | [Hc | Hc]].
    + right. exists x. split; [left | exact Hc].
    + now left.
    + destruct (IH Hc) as [? | (t & Ht & Hct)]; [now left|].
      right. exists t. split; [now right | exact Hct].
Qed.

Lemma join_head (sep : str) x (rest : list str) :
  x <> [] -> head (join sep (x :: rest)) = head x.
Proof.
  intros Hx. destruct rest; [reflexivity|].
  change (join sep (x :: l :: rest)) with (x ++ sep ++ join sep (l :: rest)).
  destruct x; [contradiction | reflexivity].
Qed.

Lemma join_last (sep : str) (parts : list str) x :
  last parts = Some x -> x <> [] -> last (join sep parts) = last x.
Proof.
  intros Hl Hx. induction parts as [|y [|z rest] IH]; [discriminate| |].
  - cbn in Hl. inversion Hl; subst. reflexivity.
  - change (join sep (y :: z :: rest)) with (y ++ sep ++ join sep (z :: rest)).
    specialize (IH Hl).
    destruct (join sep (z :: rest)) as [|j js] eqn:Ej.
    + symmetry in IH. apply last_None in IH. contradiction.
    + rewrite app_assoc, last_app, IH.
      destruct (last x) eqn:Ex; [reflexivity|].
      apply last_None in Ex. contradiction.
Qed.

Lemma lower_from_fixed (before t : str) :
  Forall (lower_fixed U) t -> lower_from U before t = t.
Proof.
  intros Ht. revert before. induction Ht as [|c t [Hc1 Hc2] _ IH]; intros before.
  - reflexivity.
  - simpl. apply N.eqb_neq in Hc1. rewrite Hc1, Hc2, IH. reflexivity.
Qed.

Lemma handle_capital_sigma_cases (before after : str) :
  handle_capital_sigma U before after = FINAL_SIGMA \/
  handle_capital_sigma U before after = SMALL_SIGMA.
Proof.
  unfold handle_capital_sigma.
  destruct (match drop_while _ before with [] => _ | _ => _ end); auto.
Qed.

(** Where a character of the lowered text comes from. *)
Lemma lower_from_elem (before s : str) d :
  d ∈ lower_from U before s ->
  (exists c, c ∈ s /\ c <> CAPITAL_SIGMA /\ d ∈ tolower_full U c) \/
  (CAPITAL_SIGMA ∈ s /\ (d = FINAL_SIGMA \/ d = SMALL_SIGMA)).
Proof.
  revert before. induction s as [|c s IH]; intros before Hd; [inversion Hd|].
  simpl in Hd. apply elem_of_app in Hd as [Hd | Hd].
  - destruct (c =? CAPITAL_SIGMA) eqn:Ec.
    + apply N.eqb_eq in Ec. subst c. right. split; [left|].
      apply list_elem_of_singleton in Hd. subst d.
      apply handle_capital_sigma_cases.
    + apply N.eqb_neq in Ec. left. exists c. split; [left | easy].
  - destruct (IH _ Hd) as [(c' & Hc' & Hne & Hin) | [Hs Hd']].
    + left. exists c'. split; [now right | easy].
    + right. split; [now right | easy].
Qed.

Lemma lower_from_image (before s : str) c :
  c ∈ s ->
  (c <> CAPITAL_SIGMA /\ forall d, d ∈ tolower_full U c -> d ∈ lower_from U before s) \/
  (c = CAPITAL_SIGMA /\
   (FINAL_SIGMA ∈ lower_from U before s \/ SMALL_SIGMA ∈ lower_from U before s)).
Proof.
  revert before. induction s as [|x s IH]; intros before Hc; [inversion Hc|].
  simpl. apply elem_of_cons in Hc as [<- | Hc].
  - destruct (c =? CAPITAL_SIGMA) eqn:Ec.
    + apply N.eqb_eq in Ec. right. split; [easy|].
      destruct (handle_capital_sigma_cases before s) as [-> | ->];
        [left | right]; apply elem_of_app; left; left.
    + apply N.eqb_neq in Ec. left. split; [easy|].
      intros d Hd. apply elem_of_app. now left.
  - destruct (IH (x :: before) Hc) as [[Hne Hall] | [Heq Hor]].
    + left. split; [easy|]. intros d Hd. apply elem_of_app. right. now apply Hall.
    + right. split; [easy|].
      destruct Hor; [left | right]; apply elem_of_app; now right.
Qed.

Hypothesis laws : UnicodeLaws U.

Lemma lower_chars_fixed (s : str) : Forall (lower_fixed U) (lower U s).
Proof.
  apply Forall_forall. intros d Hd.
  destruct (lower_from_elem _ _ _ Hd) as [(c & _ & _ & Hin) | [_ [-> | ->]]].
  - eapply lower_stable; eauto.
  - apply (sigma_stable _ laws).
  - apply (sigma_stable _ laws).
Qed.

Lemma lower_has_word (s : str) :
  (exists c, c ∈ s /\ is_word U c = true) ->
  exists d, d ∈ lower U s /\ is_word U d = true.
Proof.
  intros (c & Hc & Hw).
  destruct (lower_from_image [] s c Hc) as [[_ Hall] | [_ [H | H]]].
  - destruct (lower_keeps_word _ laws c Hw) as (d & Hd & Hwd).
    exists d. split; [now apply Hall | exact Hwd].
  - exists FINAL_SIGMA. split; [exact H | apply (sigma_word _ laws)].
  - exists SMALL_SIGMA. split; [exact H | apply (sigma_word _ laws)].
Qed.

Lemma lower_no_word (s : str) :
  (forall c, c ∈ s -> is_word U c = false) ->
  forall d, d ∈ lower U s -> is_word U d = false.
Proof.
  intros Hs d Hd.
  destruct (lower_from_elem _ _ _ Hd) as [(c & Hc & _ & Hin) | [Hsig _]].
  - eapply lower_keeps_nonword; eauto.
  - specialize (Hs _ Hsig). rewrite (proj1 (sigma_word _ laws)) in Hs.
    discriminate.
Qed.

End Normalizer.

(** ** The question normalizer *)

Section Preprocess.
Variable U : UnicodeData.

Lemma space_not_word : is_word U 32 = false.
Proof. reflexivity. Qed.

Lemma space_lower_fixed : lower_fixed U 32.
Proof. split; [discriminate | reflexivity]. Qed.

Lemma word_pieces_join (toks : list str) :
  Forall (fun t => t <> [] /\ forallb (is_word U) t = true) toks ->
  word_pieces U (join (py " ") toks) = toks.
Proof.
  change (py " ") with [32].
  induction toks as [|x [|y rest] IH]; intros Ht.
  - reflexivity.
  - apply Forall_inv in Ht as [Hx Hw]. now apply word_pieces_last.
  - change (join [32] (x :: y :: rest))
      with (x ++ 32 :: join [32] (y :: rest)).
    pose proof (Forall_inv Ht) as [Hx Hw].
    rewrite word_pieces_run by (try apply space_not_word; easy).
    f_equal. apply IH. now apply Forall_inv_tail in Ht.
Qed.

Lemma word_pieces_words (s : str) :
  Forall (fun t => t <> [] /\ forallb (is_word U) t = true) (word_pieces U s).
Proof.
  apply Forall_forall. intros t Ht.
  destruct (word_pieces_spec U s t Ht) as [Hne Hc]. split; [exact Hne|].
  apply forallb_elem. intros c Hin. now apply Hc.
Qed.

(** C6: the tokens are non-empty, they are a subsequence of the pieces of
    the lowered text split at its non-word characters (in fact exactly its
    non-empty pieces), and the normalized text is the tokens joined by
    single spaces. *)
Theorem preprocess_tokens_invariant (s : str) :
  let p := preprocess U s in
  Forall (fun t => t <> []) (tokens p) /\
  sublist (tokens p) (split_nonword U (lowered p)) /\
  tokens p = List.filter nonempty (split_nonword U (lowered p)) /\
  processed_text p = join (py " ") (tokens p).
Proof.
  simpl. rewrite token_pattern_findall_spec. repeat split.
  - eapply Forall_impl; [apply word_pieces_words|]. now intros t [].
  - apply filter_sublist_of.
Qed.

Hypothesis laws : UnicodeLaws U.

(** C7: a question with a word character has at least one token; a
    question without any (the empty question among them) has no token and
    an empty normalized text. *)
Theorem preprocess_tokens_nonempty (s : str) :
  ((exists c, c ∈ s /\ is_word U c = true) ->
     tokens (preprocess U s) <> []) /\
  ((forall c, c ∈ s -> is_word U c = false) ->
     tokens (preprocess U s) = [] /\ processed_text (preprocess U s) = []).
Proof.
  simpl. rewrite token_pattern_findall_spec. split.
  - intros (c & Hc & Hw). apply word_pieces_nonempty.
    apply (lower_has_word U laws). exists c. split; [|exact Hw].
    apply strip_keeps; [exact Hc|]. now apply (word_not_space _ laws).
  - intros Hs.
    assert (E : word_pieces U (lower U (strip U s)) = []).
    { destruct (word_pieces U (lower U (strip U s))) as [|w ws] eqn:E;
        [reflexivity|].
      assert (Hne : word_pieces U (lower U (strip U s)) <> [])
        by (rewrite E; discriminate).
      apply word_pieces_nonempty in Hne as (d & Hd & Hw).
      rewrite (lower_no_word U laws (strip U s)) in Hw; [discriminate| |exact Hd].
      intros c Hc. apply Hs. now apply strip_elem in Hc. }
    now rewrite E.
Qed.

Lemma normalized_text_fixed (s : str) :
  let toks := word_pieces U (lower U s) in
  strip U (join (py " ") toks) = join (py " ") toks /\
  lower U (join (py " ") toks) = join (py " ") toks.
Proof.
  intros toks. pose proof (word_pieces_words (lower U s)) as Hw.
  fold toks in Hw. split.
  - apply strip_fixed.
    + intros c Hc. destruct toks as [|x rest]; [discriminate|].
      apply Forall_inv in Hw as [Hx Hwx].
      rewrite join_head in Hc by exact Hx.
      apply (word_not_space _ laws).
      apply (proj1 (forallb_elem _ _) Hwx). now apply head_Some_elem_of.
    + intros c Hc. destruct (last toks) as [x|] eqn:El.
      * pose proof (proj1 (Forall_forall _ _) Hw x (last_Some_elem_of _ _ El))
          as [Hx Hwx].
        rewrite (join_last _ _ x El Hx) in Hc.
        apply (word_not_space _ laws).
        apply (proj1 (forallb_elem _ _) Hwx). now apply last_Some_elem_of.
      * apply last_None in El. rewrite El in Hc. discriminate.
  - apply lower_from_fixed, Forall_forall. intros c Hc.
    apply join_elem in Hc as [Hc | (t & Ht & Hc)].
    + apply list_elem_of_singleton in Hc. subst c. apply space_lower_fixed.
    + destruct (word_pieces_spec U _ t Ht) as [_ Hin].
      destruct (Hin c Hc) as [_ Hl].
      exact (proj1 (Forall_forall _ _) (lower_chars_fixed U laws s) c Hl).
Qed.

(** C4: preprocessing the normalized text of a question gives back the
    tokens and the normalized text of that question. *)
Theorem preprocess_idempotent (s : str) :
  let p := preprocess U s in
  let p' := preprocess U (processed_text p) in
  tokens p' = tokens p /\ processed_text p' = processed_text p.
Proof.
  simpl. rewrite !token_pattern_findall_spec.
  destruct (normalized_text_fixed (strip U s)) as [-> ->].
  rewrite word_pieces_join by apply word_pieces_words. now split.
Qed.

End Preprocess.

(** *** The laws hold of the sample database *)

Ltac char_cases :=
  unfold is_word, isalnum, isspace, tolower_full in *;
  cbn [sample_ucd ucd_isspace ucd_isalnum ucd_tolower_full] in *;
  unfold ascii_isalnum, ascii_isspace, ascii_tolower, latin1_upper, in_range,
    CAPITAL_SIGMA, FINAL_SIGMA, SMALL_SIGMA in *.

Ltac split_conds :=
  repeat match goal with
  | |- context [if ?b then _ else _] =>
      let E := fresh "E" in destruct b eqn:E
  end.

Lemma sample_ucd_laws : UnicodeLaws sample_ucd.
Proof.
  split.
  - intros c. char_cases. destruct (c <? 128) eqn:E; lia.
  - intros c d Hd. unfold lower_fixed. char_cases.
    revert Hd. split_conds; intros Hd;
      repeat (apply elem_of_cons in Hd as [-> | Hd]); try (now inversion Hd);
      (split; [lia |]);
      split_conds; try reflexivity; exfalso; lia.
  - split; (split; [discriminate | reflexivity]).
  - intros c. char_cases. split_conds; intros Hw;
      (eexists; split; [left|]); split_conds; lia.
  - intros c d. char_cases. split_conds; intros Hw Hd;
      repeat (apply elem_of_cons in Hd as [-> | Hd]); try (now inversion Hd);
      revert Hw; split_conds; lia.
  - repeat split.
Qed.

(** ** Client configuration *)

Section Configuration.
Context {F : Type}.
Variable float_of_str : str -> result F.
Variable environ : gmap string str.

(** An explicit model wins over [LLM_MODEL], which wins over the default. *)
Lemma LLMClient_init_model (m key base : option str) (t : F) c :
  LLMClient_init float_of_str environ m key base t = Return c ->
  model c = if truthy m then default [] m
            else default (py "gpt-4o-mini") (environ !! "LLM_MODEL").
Proof.
  unfold LLMClient_init, getenv.
  destruct (match environ !! "LLM_TEMPERATURE" with
            | Some raw => float_of_str raw | None => Return t end);
    simpl; [|discriminate].
  intros H. injection H as <-. reflexivity.
Qed.

(** An explicit credential wins over [OPENAI_API_KEY], which wins over
    [LLM_API_KEY]; likewise the endpoint base over [OPENAI_BASE_URL]. *)
Lemma LLMClient_init_credential (m key base : option str) (t : F) c :
  LLMClient_init float_of_str environ m key base t = Return c ->
  api_key c = py_or (py_or key (environ !! "OPENAI_API_KEY"))
                    (environ !! "LLM_API_KEY") /\
  api_base c = py_or base (environ !! "OPENAI_BASE_URL").
Proof.
  unfold LLMClient_init, getenv.
  destruct (match environ !! "LLM_TEMPERATURE" with
            | Some raw => float_of_str raw | None => Return t end);
    simpl; [|discriminate].
  intros H. injection H as <-. split; reflexivity.
Qed.

(** The temperature is read from [LLM_TEMPERATURE] whenever it is set: the
    argument counts only when the variable is absent. *)
Lemma LLMClient_init_temperature (m key base : option str) (t : F) c :
  LLMClient_init float_of_str environ m key base t = Return c ->
  Return (temperature c) =
    match environ !! "LLM_TEMPERATURE" with
    | Some raw => float_of_str raw
    | None => Return t
    end.
Proof.
  unfold LLMClient_init, getenv.
  destruct (match environ !! "LLM_TEMPERATURE" with
            | Some raw => float_of_str raw | None => Return t end);
    simpl; [|discriminate].
  intros H. injection H as <-. reflexivity.
Qed.

(** With [LLM_TEMPERATURE] set, the constructor does the same whatever
    temperature it is given. *)
Lemma LLMClient_init_temperature_ignored
    (m key base : option str) (t t' : F) raw :
  environ !! "LLM_TEMPERATURE" = Some raw ->
  LLMClient_init float_of_str environ m key base t =
  LLMClient_init float_of_str environ m key base t'.
Proof. intros H. unfold LLMClient_init, getenv. now rewrite H. Qed.

End Configuration.

(** C1: with [LLM_TEMPERATURE=0.1] in the environment, a client built with
    the explicit temperature [0.7] has temperature [0.1]: for the
    temperature the environment wins over the argument. *)
Theorem LLMClient_init_temperature_env_overrides_argument :
  LLMClient_init decimal_float_of_str {["LLM_TEMPERATURE" := py "0.1"]}
    None None None (7 # 10)%Q =
  Return {| model := py "gpt-4o-mini"; api_key := None; api_base := None;
            temperature := (1 # 10)%Q |}.
Proof. vm_compute. reflexivity. Qed.

Example LLMClient_init_model_precedence :
  LLMClient_init decimal_float_of_str {["LLM_MODEL" := py "env-model"]}
    (Some (py "arg-model")) None None (7 # 10)%Q =
  Return {| model := py "arg-model"; api_key := None; api_base := None;
            temperature := (7 # 10)%Q |}.
Proof. vm_compute. reflexivity. Qed.

(** ** The client *)

Lemma splitlines_from_nil (cur s : str) :
  splitlines_from cur s = [] <-> cur = [] /\ s = [].
Proof.
  revert cur. induction s as [|c s IH]; intros cur; simpl.
  - destruct cur; split; try easy; now intros [? _].
  - destruct (is_linebreak c).
    + split; [discriminate | now intros [_ ?]].
    + rewrite IH. split; [now intros [? _] | now intros [_ ?]].
Qed.

Lemma splitlines_nil (s : str) : splitlines s = [] <-> s = [].
Proof.
  unfold splitlines. rewrite splitlines_from_nil. split; [now intros [_ ?] | easy].
Qed.

Section Client.
Variable U : UnicodeData.
Context {F : Type}.
Variable rt : Runtime F.

Lemma offline_response_returns (prompt : str) :
  (exists s, _offline_response U prompt = Return s) <-> prompt <> [].
Proof.
  unfold _offline_response. rewrite <- splitlines_nil.
  destruct (last (splitlines prompt)) eqn:E.
  - split; [|eauto]. intros _ H. rewrite H in E. discriminate.
  - apply last_None in E. split; [now intros [s ?] | congruence].
Qed.

Lemma offline_response_empty : _offline_response U [] = Raise IndexError.
Proof. reflexivity. Qed.

Lemma generate_response_configured (self : LLMClient F) (prompt : str) :
  is_configured rt self = true ->
  exists s, generate_response U rt self prompt = Return s.
Proof.
  intros Hc. unfold generate_response. rewrite Hc. simpl negb. cbv iota.
  unfold try_except.
  destruct (match OpenAI rt with Some _ => _ | None => _ end); eauto.
Qed.

(** C2: when the provider call raises, [generate_response] returns the
    error line ending in the message of the exception, and does not
    raise. *)
Theorem generate_response_provider_error
    (self : LLMClient F) (prompt : str) create (exc : exception) :
  is_configured rt self = true ->
  OpenAI rt = Some create ->
  create {| req_api_key := api_key self; req_base_url := api_base self;
            req_model := model self; req_input := prompt;
            req_temperature := temperature self |} = Raise exc ->
  generate_response U rt self prompt =
    Return (py "[LLM Error] Unable to fetch response: " ++ exc_message exc).
Proof.
  intros Hc Hp Hr. unfold generate_response.
  rewrite Hc, Hp. simpl negb. cbv iota. now rewrite Hr.
Qed.

(** C10: an unconfigured client raises [IndexError] on the empty prompt,
    and returns a string exactly on the prompts that have a line. *)
Theorem generate_response_unconfigured_empty_prompt (self : LLMClient F) :
  is_configured rt self = false ->
  generate_response U rt self [] = Raise IndexError /\
  forall prompt,
    (exists s, generate_response U rt self prompt = Return s) <->
    splitlines prompt <> [].
Proof.
  intros Hc. unfold generate_response. rewrite Hc. simpl negb. cbv iota.
  split; [reflexivity|]. intros prompt.
  rewrite splitlines_nil. apply offline_response_returns.
Qed.

(** The only exception [generate_response] lets through. *)
Lemma generate_response_raises (self : LLMClient F) (prompt : str) e :
  generate_response U rt self prompt = Raise e <->
  is_configured rt self = false /\ prompt = [] /\ e = IndexError.
Proof.
  destruct (is_configured rt self) eqn:Hc.
  - destruct (generate_response_configured self prompt Hc) as [s ->].
    split; [discriminate | now intros [? _]].
  - unfold generate_response. rewrite Hc. simpl negb. cbv iota.
    destruct prompt as [|c p].
    + rewrite offline_response_empty. split.
      * intros H. injection H as <-. auto.
      * now intros (_ & _ & ->).
    + destruct (proj2 (offline_response_returns (c :: p))) as [s ->];
        [discriminate|].
      split; [discriminate | now intros (_ & ? & _)].
Qed.

End Client.

Lemma generate_response_provider_error_witness :
  let rt := failing_runtime ValueError in
  let self := sample_client (Some (py "sk-test")) in
  is_configured rt self = true /\
  OpenAI rt = Some (fun _ => Raise ValueError) /\
  generate_response sample_ucd rt self (py "hello") =
    Return (py "[LLM Error] Unable to fetch response: "
            ++ exc_message ValueError).
Proof.
  split; [reflexivity|]. split; [reflexivity|].
  apply (generate_response_provider_error sample_ucd
           (failing_runtime ValueError) (sample_client (Some (py "sk-test")))
           (py "hello") (fun _ => Raise ValueError) ValueError);
    reflexivity.
Defined.

Lemma generate_response_unconfigured_empty_prompt_witness :
  is_configured offline_runtime (sample_client None) = false /\
  generate_response sample_ucd offline_runtime (sample_client None) [] =
    Raise IndexError /\
  forall prompt,
    (exists s, generate_response sample_ucd offline_runtime
                 (sample_client None) prompt = Return s) <->
    splitlines prompt <> [].
Proof.
  split; [reflexivity|].
  apply (generate_response_unconfigured_empty_prompt sample_ucd
           offline_runtime (sample_client None)).
  reflexivity.
Defined.

(** C3: on the empty prompt an unconfigured client returns no string,
    whatever the character database: the call ends in [IndexError]. *)
Theorem generate_response_offline_empty_prompt_raises (U : UnicodeData) :
  is_configured offline_runtime (sample_client None) = false /\
  generate_response U offline_runtime (sample_client None) [] =
    Raise IndexError.
Proof. split; reflexivity. Qed.

(** ** [textwrap.dedent] *)

Lemma starts_with_app (m r : str) : starts_with (m ++ r) m = true.
Proof.
  induction m as [|c m IH]; simpl; [reflexivity|].
  now rewrite N.eqb_refl, IH.
Qed.

Lemma starts_with_split (l m : str) :
  starts_with l m = true -> l = m ++ drop (length m) l.
Proof.
  revert l. induction m as [|c m IH]; intros l; simpl; [reflexivity|].
  destruct l as [|d l]; [discriminate|].
  intros H. apply andb_prop in H as [Hc Hm]. apply N.eqb_eq in Hc. subst d.
  simpl. f_equal. now apply IH.
Qed.

Lemma split_on_join (lines : list str) :
  lines <> [] ->
  Forall (fun l => forallb (fun c => negb (is_lf c)) l = true) lines ->
  split_on is_lf (join nl lines) = lines.
Proof.
  induction lines as [|x [|y rest] IH]; intros Hne Hl; [contradiction| |].
  - apply split_on_free. now apply Forall_inv in Hl.
  - change (join nl (x :: y :: rest)) with (x ++ 10 :: join nl (y :: rest)).
    rewrite split_on_app; [|now apply Forall_inv in Hl|reflexivity].
    f_equal. apply IH; [discriminate | now apply Forall_inv_tail in Hl].
Qed.

Section Uniform.
Variable m : str.
Hypothesis m_blank : forallb is_blank m = true.

Lemma whitespace_only_sub_indented (o : option str) :
  from_option single_line True o ->
  whitespace_only_sub (indented m o) = emptied m o.
Proof.
  intros Ho. unfold whitespace_only_sub.
  destruct o as [[|c r]|]; simpl; [| |reflexivity].
  - now rewrite app_nil_r, m_blank.
  - destruct Ho as [_ Hh].
    rewrite forallb_app. simpl. rewrite (Hh c eq_refl).
    now rewrite andb_false_r.
Qed.

Lemma leading_whitespace_emptied (o : option str) :
  from_option single_line True o ->
  leading_whitespace (emptied m o) =
  match o with Some (_ :: _) => Some m | _ => None end.
Proof.
  intros Ho. destruct o as [[|c r]|]; simpl; auto.
  destruct Ho as [_ Hh]. unfold leading_whitespace.
  destruct (take_while_app_stop is_blank m c r m_blank (Hh c eq_refl))
    as [-> ->].
  reflexivity.
Qed.

Lemma update_margin_same (indents : list str) :
  Forall (eq m) indents ->
  fold_left update_margin indents (Some m) = Some m.
Proof.
  induction 1 as [|x l <- _ IH]; simpl; [reflexivity|].
  rewrite <- (app_nil_r m) at 1. rewrite starts_with_app. exact IH.
Qed.

Lemma indents_uniform (ls : list (option str)) :
  Forall (from_option single_line True) ls ->
  Forall (eq m) (omap leading_whitespace (map (emptied m) ls)) /\
  (omap leading_whitespace (map (emptied m) ls) = [] ->
   map (emptied m) ls = map (default []) ls).
Proof.
  induction 1 as [|o ls Ho _ [IH1 IH2]]; [now split|].
  simpl. rewrite (leading_whitespace_emptied o Ho).
  destruct o as [[|c r]|]; simpl.
  - split; [exact IH1|]. intros E. now rewrite IH2.
  - split; [now constructor | discriminate].
  - split; [exact IH1|]. intros E. now rewrite IH2.
Qed.

Lemma dedent_margin_uniform (ls : list (option str)) :
  Forall (from_option single_line True) ls ->
  (dedent_margin (map (emptied m) ls) = None /\
   map (emptied m) ls = map (default []) ls) \/
  dedent_margin (map (emptied m) ls) = Some m.
Proof.
  intros Hls. destruct (indents_uniform ls Hls) as [Hall Hnil].
  unfold dedent_margin.
  destruct (omap leading_whitespace (map (emptied m) ls)) as [|x l].
  - left. split; [reflexivity | now apply Hnil].
  - right. simpl. pose proof (Forall_inv Hall) as <-.
    apply update_margin_same. now apply Forall_inv_tail in Hall.
Qed.

Lemma remove_margin_emptied (o : option str) :
  m <> [] -> remove_margin m (emptied m o) = default [] o.
Proof.
  intros Hm. unfold remove_margin.
  destruct o as [[|c r]|]; simpl.
  - destruct m; [contradiction | reflexivity].
  - now rewrite starts_with_app, drop_app_length.
  - destruct m; [contradiction | reflexivity].
Qed.

Lemma emptied_no_margin (o : option str) :
  m = [] -> emptied m o = default [] o.
Proof. intros Hm. rewrite Hm. now destruct o as [[|c r]|]. Qed.

(** A text whose lines all stand behind the same indentation, or are
    empty, loses exactly that indentation. *)
Lemma dedent_uniform (ls : list (option str)) :
  ls <> [] ->
  Forall (from_option single_line True) ls ->
  dedent (join nl (map (indented m) ls)) = join nl (map (default []) ls).
Proof.
  intros Hne Hls. unfold dedent.
  rewrite split_on_join.
  - rewrite map_map.
    rewrite (map_ext_Forall _ (emptied m)).
    + destruct (dedent_margin_uniform ls Hls) as [[-> ->] | ->];
        [reflexivity|].
      pose proof emptied_no_margin as Hnil.
      pose proof remove_margin_emptied as Hcons.
      destruct m as [|c m'].
      * f_equal. apply map_ext. intros o. now apply Hnil.
      * rewrite map_map. f_equal. apply map_ext. intros o.
        now apply Hcons.
    + eapply Forall_impl; [exact Hls|]. intros o Ho.
      now apply whitespace_only_sub_indented.
  - destruct ls; [contradiction | discriminate].
  - apply Forall_map. eapply Forall_impl; [exact Hls|]. intros o Ho.
    destruct o as [l|]; simpl; [|reflexivity].
    rewrite forallb_app. destruct Ho as [-> _].
    rewrite andb_true_r. clear -m_blank.
    induction m as [|c m' IH]; simpl in *; [reflexivity|].
    apply andb_prop in m_blank as [Hc Hm]. rewrite (IH Hm), andb_true_r.
    unfold is_blank, is_lf in *. lia.
Qed.

End Uniform.

Lemma join_framed (ls : list str) :
  ls <> [] -> join nl ([] :: ls ++ [[]]) = nl ++ join nl ls ++ nl.
Proof.
  intros Hne. destruct ls as [|x ls]; [contradiction|]. clear Hne.
  change (join nl ([] :: (x :: ls) ++ [[]]))
    with (nl ++ join nl ((x :: ls) ++ [[]])).
  f_equal. revert x. induction ls as [|y ls IH]; intros x.
  - reflexivity.
  - change (join nl ((x :: y :: ls) ++ [[]]))
      with (x ++ nl ++ join nl ((y :: ls) ++ [[]])).
    rewrite IH.
    change (join nl (x :: y :: ls)) with (x ++ nl ++ join nl (y :: ls)).
    now rewrite <- !app_assoc.
Qed.

Lemma contains_unfold (h n : str) :
  contains h n =
  starts_with h n || match h with [] => false | _ :: h' => contains h' n end.
Proof. now destruct h. Qed.

Lemma substring_contains (s t : str) : substring s t -> contains t s = true.
Proof.
  intros (pre & post & ->). induction pre as [|c pre IH].
  - rewrite contains_unfold. simpl app. now rewrite starts_with_app.
  - rewrite contains_unfold. cbn -[contains starts_with]. rewrite IH.
    apply orb_true_r.
Qed.

Section Stripping.
Variable U : UnicodeData.

Lemma drop_while_app_space (a rest : str) :
  forallb (isspace U) a = true ->
  drop_while (isspace U) (a ++ rest) = drop_while (isspace U) rest.
Proof.
  induction a as [|c a IH]; simpl; [reflexivity|].
  intros H. apply andb_prop in H as [-> Ha]. now apply IH.
Qed.

(** [strip] takes a frame of white space off a text that neither starts
    nor ends with white space. *)
Lemma strip_core (a core b : str) c d :
  forallb (isspace U) a = true -> forallb (isspace U) b = true ->
  head core = Some c -> isspace U c = false ->
  last core = Some d -> isspace U d = false ->
  strip U (a ++ core ++ b) = core.
Proof.
  intros Ha Hb Hc Hcs Hd Hds. unfold strip, lstrip, rstrip.
  rewrite drop_while_app_space by exact Ha.
  rewrite (drop_while_id (isspace U) (core ++ b)).
  2:{ intros x Hx. destruct core as [|y core']; [discriminate|].
      cbn in Hx, Hc. congruence. }
  rewrite reverse_app, drop_while_app_space.
  2:{ apply forallb_elem. intros x Hx. rewrite elem_of_reverse in Hx.
      now apply (proj1 (forallb_elem _ _) Hb). }
  rewrite drop_while_id; [apply reverse_involutive|].
  intros x. rewrite head_reverse. congruence.
Qed.

End Stripping.

(** *** The lines of [splitlines] *)

Lemma splitlines_from_lines (n : nat) (cur s l : str) :
  (length s <= n)%nat ->
  forallb (fun c => negb (is_linebreak c)) cur = true ->
  l ∈ splitlines_from cur s ->
  forallb (fun c => negb (is_linebreak c)) l = true.
Proof.
  assert (Hrev : forall cur : str,
    forallb (fun c => negb (is_linebreak c)) cur = true ->
    forallb (fun c => negb (is_linebreak c)) (reverse cur) = true).
  { intros cur0 H0. apply forallb_elem. intros x Hx.
    rewrite elem_of_reverse in Hx. now apply (proj1 (forallb_elem _ _) H0). }
  revert cur s. induction n as [|n IH]; intros cur s Hn Hcur Hl.
  - destruct s; [|simpl in Hn; lia]. simpl in Hl.
    destruct cur; [inversion Hl|].
    apply list_elem_of_singleton in Hl. subst l. now apply Hrev.
  - destruct s as [|c s]; simpl in Hl.
    + destruct cur; [inversion Hl|].
      apply list_elem_of_singleton in Hl. subst l. now apply Hrev.
    + simpl in Hn. destruct (is_linebreak c) eqn:Ec.
      * apply elem_of_cons in Hl as [-> | Hl]; [now apply Hrev|].
        destruct s as [|d s']; [inversion Hl|]. simpl in Hn.
        destruct ((c =? 13) && (d =? 10)).
        -- apply (IH [] s'); [lia | reflexivity | exact Hl].
        -- apply (IH [] (d :: s')); [simpl; lia | reflexivity | exact Hl].
      * apply (IH (c :: cur) s); [lia | | exact Hl]. simpl. now rewrite Ec.
Qed.

Lemma splitlines_last_no_lf (s preview : str) :
  last (splitlines s) = Some preview -> no_lf (take 120 preview).
Proof.
  intros Hl. apply last_Some_elem_of in Hl.
  pose proof (splitlines_from_lines (length s) [] s preview
                (Nat.le_refl _) eq_refl Hl) as Hp.
  apply forallb_elem. intros c Hc.
  assert (Hin : c ∈ preview).
  { rewrite <- (take_drop 120 preview). apply elem_of_app. now left. }
  pose proof (proj1 (forallb_elem _ _) Hp c Hin) as Hb.
  unfold is_linebreak, is_lf, in_range in *. lia.
Qed.

(** ** The two templates *)

Section Templates.
Variable U : UnicodeData.

Lemma indent12_blank : forallb is_blank indent12 = true.
Proof. reflexivity. Qed.

(** Dedenting and stripping a template whose lines cannot be broken
    leaves its lines. *)
Lemma template_text (lines : list (option str)) c d :
  lines <> [] ->
  Forall (from_option single_line True) lines ->
  head (join nl (map (default []) lines)) = Some c -> isspace U c = false ->
  last (join nl (map (default []) lines)) = Some d -> isspace U d = false ->
  strip U (dedent (template lines)) = join nl (map (default []) lines).
Proof.
  intros Hne Hl Hc Hcs Hd Hds. unfold template.
  rewrite (dedent_uniform indent12 indent12_blank).
  - change (map (default []) (None :: lines ++ [Some []]))
      with ([] :: map (default []) (lines ++ [Some []])).
    rewrite map_app. change (map (default []) [Some []]) with [([] : str)].
    rewrite join_framed by (destruct lines; [contradiction | discriminate]).
    now apply (strip_core U nl _ nl c d).
  - discriminate.
  - constructor; [exact I|]. apply Forall_app. split; [exact Hl|].
    constructor; [|constructor]. split; [reflexivity | discriminate].
Qed.

Lemma literal_line (lit : string) (rest : str) c :
  head (py lit) = Some c -> is_blank c = false ->
  no_lf (py lit) -> no_lf rest ->
  single_line (py lit ++ rest).
Proof.
  intros Hh Hb Hl Hr. split.
  - unfold no_lf in *. now rewrite forallb_app, Hl, Hr.
  - intros x Hx. destruct (py lit); [discriminate|].
    cbn in Hh, Hx. congruence.
Qed.

Ltac each_line :=
  repeat first [apply List.Forall_nil
               | apply List.Forall_cons; [cbn [from_option]|]].

Lemma offline_template_text (preview : str) :
  no_lf preview ->
  strip U (dedent (offline_template preview)) = offline_message preview.
Proof.
  intros Hp.
  change (offline_template preview) with (template (offline_lines preview)).
  unfold offline_message.
  apply (template_text _ 91 34); try reflexivity; try discriminate.
  - each_line.
    1-3: split; [reflexivity | now intros c [= <-]].
    split; [|now intros c [= <-]].
    unfold no_lf in Hp. now rewrite !forallb_app, Hp.
  - erewrite join_last; [|reflexivity|discriminate].
    rewrite !app_assoc. apply last_snoc.
Qed.

Lemma prompt_template_text (original processed_text : str) :
  no_lf original -> no_lf processed_text ->
  strip U (dedent (prompt_template original processed_text)) =
  prompt_message original processed_text.
Proof.
  intros Ho Hp.
  change (prompt_template original processed_text)
    with (template (prompt_lines original processed_text)).
  unfold prompt_message.
  apply (template_text _ 89 58); try reflexivity; try discriminate.
  - each_line; try exact I.
    1-3, 6: split; [reflexivity | now intros c [= <-]].
    + now apply (literal_line _ _ 79).
    + now apply (literal_line _ _ 78).
  - rewrite (join_last nl _ (py "Answer:"));
      [reflexivity | reflexivity | discriminate].
Qed.

End Templates.

(** ** [dedent] removes spaces and tabs only *)

Lemma unblank_elem (s : str) c :
  c ∈ unblank s <-> c ∈ s /\ is_blank c = false.
Proof.
  unfold unblank. rewrite !list_elem_of_In, filter_In, negb_true_iff.
  reflexivity.
Qed.

Lemma unblank_app (a b : str) : unblank (a ++ b) = unblank a ++ unblank b.
Proof. apply List.filter_app. Qed.

Lemma unblank_blank (m : str) : forallb is_blank m = true -> unblank m = [].
Proof.
  induction m as [|c m IH]; simpl; [reflexivity|].
  intros H. apply andb_prop in H as [-> Hm]. now apply IH.
Qed.

Lemma unblank_join (ls : list str) :
  unblank (join nl ls) = join nl (map unblank ls).
Proof.
  induction ls as [|x [|y rest] IH]; [reflexivity | reflexivity |].
  change (join nl (x :: y :: rest)) with (x ++ nl ++ join nl (y :: rest)).
  rewrite !unblank_app, IH. reflexivity.
Qed.

Lemma unblank_whitespace_only_sub (l : str) :
  unblank (whitespace_only_sub l) = unblank l.
Proof.
  unfold whitespace_only_sub. destruct (forallb is_blank l) eqn:E;
    [|reflexivity].
  now rewrite (unblank_blank l E).
Qed.

Lemma unblank_remove_margin (m l : str) :
  forallb is_blank m = true -> unblank (remove_margin m l) = unblank l.
Proof.
  intros Hm. unfold remove_margin.
  destruct (starts_with l m) eqn:E; [|reflexivity].
  rewrite (starts_with_split l m E) at 2.
  now rewrite unblank_app, (unblank_blank m Hm).
Qed.

Lemma common_prefix_blank (a b : str) :
  forallb is_blank a = true -> forallb is_blank (common_prefix a b) = true.
Proof.
  revert b. induction a as [|x a IH]; intros b Ha; [reflexivity|].
  destruct b as [|y b]; [reflexivity|]. simpl in *.
  apply andb_prop in Ha as [Hx Ha].
  destruct (x =? y); [|reflexivity]. simpl. now rewrite Hx, IH.
Qed.

Lemma update_margin_blank (indents : list str) (margin : option str) :
  from_option (fun m => forallb is_blank m = true) True margin ->
  Forall (fun i => forallb is_blank i = true) indents ->
  from_option (fun m => forallb is_blank m = true) True
    (fold_left update_margin indents margin).
Proof.
  intros Hm Hi. revert margin Hm.
  induction Hi as [|i l Hi _ IH]; intros margin Hm; [exact Hm|].
  simpl. apply IH. destruct margin as [m|]; simpl in *; [|exact Hi].
  destruct (starts_with i m); [exact Hm|].
  destruct (starts_with m i); [exact Hi|].
  now apply common_prefix_blank.
Qed.

Lemma dedent_margin_blank (lines : list str) m :
  dedent_margin lines = Some m -> forallb is_blank m = true.
Proof.
  intros H.
  pose proof (update_margin_blank (omap leading_whitespace lines) None I)
    as Hb.
  unfold dedent_margin in H. rewrite H in Hb. apply Hb.
  clear. induction lines as [|l lines IH]; simpl; [constructor|].
  unfold leading_whitespace at 1.
  destruct (drop_while is_blank l); [exact IH|].
  constructor; [apply take_while_all | exact IH].
Qed.

Lemma unblank_dedent (text : str) : unblank (dedent text) = unblank text.
Proof.
  unfold dedent.
  set (lines := map whitespace_only_sub (split_on is_lf text)).
  assert (E : join nl (map unblank lines) = unblank text).
  { unfold lines. rewrite map_map.
    rewrite (map_ext _ unblank)
      by (intros l; apply unblank_whitespace_only_sub).
    now rewrite <- unblank_join, join_split_on. }
  destruct (dedent_margin lines) as [[|c m]|] eqn:Em;
    try (now rewrite unblank_join).
  rewrite unblank_join, map_map.
  rewrite (map_ext _ unblank); [exact E|].
  intros l. apply unblank_remove_margin.
  now apply (dedent_margin_blank lines).
Qed.

Section Prompt.
Variable U : UnicodeData.

(** The prompt is never empty: the [Y] of the preamble is in it. *)
Lemma build_prompt_nonempty (p : ProcessedQuestion) : build_prompt U p <> [].
Proof.
  assert (H : 89 ∈ build_prompt U p).
  { unfold build_prompt. apply strip_keeps; [|reflexivity].
    apply (proj1 (unblank_elem _ _)). rewrite unblank_dedent.
    apply unblank_elem. split; [|reflexivity].
    assert (E : exists rest,
      prompt_template (original p) (processed_text p) =
      (10 :: indent12) ++ 89 :: rest).
    { eexists. unfold prompt_template. cbn. reflexivity. }
    destruct E as [rest ->]. apply elem_of_app. right. left. }
  intros E. rewrite E in H. inversion H.
Qed.

End Prompt.

(** ** The offline message and the prompt *)

Lemma substring_app_r (s a b : str) : substring s b -> substring s (a ++ b).
Proof.
  intros (pre & post & ->). exists (a ++ pre), post.
  now rewrite <- app_assoc.
Qed.

Lemma substring_part (pre s post : str) : substring s (pre ++ s ++ post).
Proof. now exists pre, post. Qed.

Lemma offline_message_shape (preview : str) :
  (exists rest, offline_message preview = py "[Offline Response]" ++ rest) /\
  substring (preview ++ py "...") (offline_message preview).
Proof.
  split.
  - eexists. unfold offline_message, offline_lines.
    cbn [map default from_option id join]. reflexivity.
  - unfold offline_message, offline_lines.
    cbn [map default from_option id join].
    do 6 apply substring_app_r.
    rewrite (app_assoc preview). apply substring_part.
Qed.

Lemma prompt_message_shape (original processed_text : str) :
  substring original (prompt_message original processed_text) /\
  substring processed_text (prompt_message original processed_text).
Proof.
  unfold prompt_message, prompt_lines.
  cbn [map default from_option id join]. rewrite <- !app_assoc. split.
  - do 9 apply substring_app_r. apply (substring_part []).
  - do 12 apply substring_app_r. apply (substring_part []).
Qed.

Section Service.
Variable U : UnicodeData.
Context {F : Type}.
Variable rt : Runtime F.

(** What an unconfigured client answers on a prompt that has a line: the
    offline message around the first 120 characters of the last line. *)
Lemma generate_response_offline_text
    (self : LLMClient F) (prompt preview : str) :
  is_configured rt self = false ->
  last (splitlines prompt) = Some preview ->
  generate_response U rt self prompt =
    Return (offline_message (take 120 preview)).
Proof.
  intros Hc Hl. unfold generate_response, _offline_response.
  rewrite Hc, Hl. simpl negb. cbv iota. f_equal.
  apply offline_template_text. now apply (splitlines_last_no_lf prompt).
Qed.

(** X9: an unconfigured client, on a prompt that has a line, returns a
    text that begins with the offline label and contains the first 120
    characters of the last line followed by the ellipsis. *)
Lemma generate_response_offline_shape
    (self : LLMClient F) (prompt preview : str) :
  is_configured rt self = false ->
  last (splitlines prompt) = Some preview ->
  exists text rest,
    generate_response U rt self prompt = Return text /\
    text = py "[Offline Response]" ++ rest /\
    substring (take 120 preview ++ py "...") text.
Proof.
  intros Hc Hl.
  destruct (offline_message_shape (take 120 preview)) as [[rest E] Hs].
  exists (offline_message (take 120 preview)), rest.
  split; [now apply generate_response_offline_text | now split].
Qed.

(** The prompt of a question that fits on one line. *)
Lemma build_prompt_single_line (p : ProcessedQuestion) :
  no_lf (original p) -> no_lf (processed_text p) ->
  build_prompt U p = prompt_message (original p) (processed_text p).
Proof. intros Ho Hp. now apply prompt_template_text. Qed.

(** The normalized text never holds a line feed. *)
Lemma processed_text_no_lf (question : str) :
  no_lf (processed_text (preprocess U question)).
Proof.
  simpl. rewrite token_pattern_findall_spec.
  apply forallb_elem. intros c Hc.
  apply join_elem in Hc as [Hc | (t & Ht & Hc)].
  - apply list_elem_of_singleton in Hc. now subst c.
  - destruct (word_pieces_spec U _ t Ht) as [_ Hw].
    destruct (Hw c Hc) as [Hword _].
    destruct (is_lf c) eqn:E; [|reflexivity].
    apply N.eqb_eq in E. subst c. discriminate Hword.
Qed.

(** X11: the prompt of a question that, once stripped, holds no line
    feed contains the stripped question and its normalized text. *)
Lemma build_prompt_contains (question : str) :
  no_lf (strip U question) ->
  let p := preprocess U question in
  substring (original p) (build_prompt U p) /\
  substring (processed_text p) (build_prompt U p).
Proof.
  intros Hq p.
  rewrite (build_prompt_single_line p Hq (processed_text_no_lf question)).
  apply prompt_message_shape.
Qed.

Lemma answer_question_returns (self : LLMQAService F) (question : str) :
  exists a,
    generate_response U rt (client self)
      (build_prompt U (preprocess U question)) = Return a /\
    answer_question U rt self question =
      Return {| original_question := strip U question;
                processed_question := processed_text (preprocess U question);
                result_tokens := tokens (preprocess U question);
                prompt := build_prompt U (preprocess U question);
                answer := a |}.
Proof.
  unfold answer_question.
  destruct (generate_response U rt (client self)
              (build_prompt U (preprocess U question))) as [a|e] eqn:E.
  - exists a. split; reflexivity.
  - apply generate_response_raises in E as (_ & Hp & _).
    now apply build_prompt_nonempty in Hp.
Qed.

(** C8, amended: [answer_question] always returns, and the result holds
    the question stripped of its leading and trailing white space, with
    the normalized question, the tokens, the prompt and the answer. *)
Theorem answer_question_result (self : LLMQAService F) (question : str) :
  exists r,
    answer_question U rt self question = Return r /\
    original_question r = strip U question /\
    processed_question r = processed_text (preprocess U question) /\
    result_tokens r = tokens (preprocess U question) /\
    prompt r = build_prompt U (preprocess U question) /\
    generate_response U rt (client self) (prompt r) = Return (answer r).
Proof.
  destruct (answer_question_returns self question) as (a & Ha & ->).
  eexists. split; [reflexivity|]. simpl. repeat split. exact Ha.
Qed.

(** C9, amended: on a JSON object whose [question], when present, is a
    string, the endpoint answers 400 with the error body exactly when the
    stripped question is empty (a missing field counts as empty), and
    otherwise 200 with the stripped question and the fields of the
    answer. *)
Theorem api_ask_object_body (self : LLMQAService F)
    (fields : list (str * json)) :
  (dict_get fields (py "question") = None \/
   exists s, dict_get fields (py "question") = Some (JString s)) ->
  let question :=
    match dict_get fields (py "question") with
    | Some (JString s) => strip U s
    | _ => []
    end in
  (api_ask U rt self (Some (JObject fields)) = Return error_response <->
   question = []) /\
  (question <> [] ->
   exists r, answer_question U rt self question = Return r /\
     api_ask U rt self (Some (JObject fields)) =
       Return (answer_response question r)).
Proof.
  intros Hq question.
  assert (E : api_ask U rt self (Some (JObject fields)) =
    if negb (nonempty question) then Return error_response
    else r <- answer_question U rt self question;;
         Return (answer_response question r)).
  { unfold api_ask, question.
    assert (Hd : (if json_truthy (JObject fields) then JObject fields
                  else JObject []) = JObject fields) by now destruct fields.
    rewrite Hd. cbn [bind].
    destruct Hq as [-> | [s ->]]; [reflexivity|].
    cbn [json_truthy]. destruct s as [|c s]; [reflexivity|].
    reflexivity. }
  rewrite E.
  destruct (answer_question_returns self question) as (a & _ & ->).
  cbn [bind]. destruct question as [|c q]; simpl.
  - split; [easy | congruence].
  - split; [split; discriminate|]. intros _. eauto.
Qed.

End Service.

(** A body whose [question] is the number 5 is answered neither by the
    error body nor by the fields of an answer: the handler ends in
    [AttributeError]. *)
Lemma api_ask_number_question_counterexample :
  api_ask sample_ucd offline_runtime (sample_service None)
    (Some (JObject [(py "question", JInt 5)])) =
  Raise (AttributeError "int" "strip") /\
  ~ (exists r, api_ask sample_ucd offline_runtime (sample_service None)
                 (Some (JObject [(py "question", JInt 5)])) = Return r).
Proof.
  split; [reflexivity|]. intros [r H]. discriminate H.
Qed.

Lemma api_ask_object_body_witness :
  let fields := [(py "question", JString (py "Explain recursion"))] in
  let question := strip sample_ucd (py "Explain recursion") in
  (dict_get fields (py "question") = None \/
   exists s, dict_get fields (py "question") = Some (JString s)) /\
  (api_ask sample_ucd offline_runtime (sample_service None)
     (Some (JObject fields)) = Return error_response <-> question = []) /\
  (question <> [] ->
   exists r,
     answer_question sample_ucd offline_runtime (sample_service None)
       question = Return r /\
     api_ask sample_ucd offline_runtime (sample_service None)
       (Some (JObject fields)) = Return (answer_response question r)).
Proof.
  assert (H : dict_get [(py "question", JString (py "Explain recursion"))]
                (py "question") = None \/
              exists s, dict_get
                [(py "question", JString (py "Explain recursion"))]
                (py "question") = Some (JString s)).
  { right. exists (py "Explain recursion"). reflexivity. }
  split; [exact H|].
  exact (api_ask_object_body sample_ucd offline_runtime (sample_service None)
           [(py "question", JString (py "Explain recursion"))] H).
Defined.

(** The result of [answer_question] on [" a"] holds ["a"], not the
    question as it was entered. *)
Lemma answer_question_strips_counterexample :
  exists r,
    answer_question sample_ucd offline_runtime (sample_service None)
      (py " a") = Return r /\
    original_question r = py "a" /\
    original_question r <> py " a".
Proof.
  eexists. split; [vm_compute; reflexivity|]. split; [reflexivity|].
  discriminate.
Qed.

(** C5: for the question made of the two lines ["a"] and [" b"], the
    original text is not a substring of the prompt, whatever the character
    database. *)
Theorem build_prompt_loses_multiline_original (U : UnicodeData) :
  let p := preprocess U (py "a" ++ nl ++ py " b") in
  original p = py "a" ++ nl ++ py " b" /\
  processed_text p = py "a b" /\
  build_prompt U p =
    join nl [
      py "You are a helpful university-level teaching assistant. Answer the user's";
      py "           question clearly and concisely. Cite key facts when appropriate and";
      py "           mention assumptions if the question lacks detail.";
      [];
      py "           Original question: a";
      py "b";
      py "           Normalized question: a b";
      [];
      py "           Answer:" ] /\
  ~ substring (original p) (build_prompt U p).
Proof.
  split; [reflexivity|]. split; [reflexivity|].
  split; [vm_compute; reflexivity|].
  intros H. apply substring_contains in H. vm_compute in H. discriminate H.
Qed.

Lemma preprocess_idempotent_witness :
  UnicodeLaws sample_ucd /\
  let p := preprocess sample_ucd (py "  What is NLP? ") in
  let p' := preprocess sample_ucd (processed_text p) in
  tokens p' = tokens p /\ processed_text p' = processed_text p.
Proof.
  split; [exact sample_ucd_laws|].
  apply (preprocess_idempotent sample_ucd sample_ucd_laws
           (py "  What is NLP? ")).
Defined.

Lemma preprocess_tokens_nonempty_witness :
  UnicodeLaws sample_ucd /\
  tokens (preprocess sample_ucd (py "What is NLP?")) <> [] /\
  tokens (preprocess sample_ucd (py "?! ...")) = [] /\
  processed_text (preprocess sample_ucd (py "?! ...")) = [].
Proof.
  split; [exact sample_ucd_laws|]. split.
  - apply (preprocess_tokens_nonempty sample_ucd sample_ucd_laws
             (py "What is NLP?")).
    exists 87. split; [left | reflexivity].
  - apply (preprocess_tokens_nonempty sample_ucd sample_ucd_laws
             (py "?! ...")).
    intros c Hc. vm_compute in Hc.
    repeat (apply elem_of_cons in Hc as [-> | Hc]; [reflexivity|]).
    inversion Hc.
Defined.

(** * Further properties *)

(** ** The normalizer *)

Lemma concat_split_on (sep : N -> bool) (s : str) :
  concat (split_on sep s) = List.filter (fun c => negb (sep c)) s.
Proof.
  induction s as [|c s IH]; [reflexivity|].
  simpl. destruct (sep c); simpl; [exact IH|].
  destruct (split_on_cons sep s) as (w & ws & E). rewrite E in *.
  simpl in *. now rewrite IH.
Qed.

Lemma concat_filter_nonempty (l : list str) :
  concat (List.filter nonempty l) = concat l.
Proof.
  induction l as [|x l IH]; [reflexivity|].
  simpl. destruct x; simpl; [exact IH | now rewrite IH].
Qed.

Section NormalizerFacts.
Variable U : UnicodeData.

Lemma strip_head (s : str) c :
  head (strip U s) = Some c -> isspace U c = false.
Proof.
  unfold strip. intros Hc.
  pose proof (take_drop_while (isspace U) (reverse (lstrip U s))) as Hd.
  apply (f_equal reverse) in Hd.
  rewrite reverse_app, reverse_involutive in Hd. fold (rstrip U (lstrip U s)) in Hd.
  destruct (rstrip U (lstrip U s)) as [|x r]; [discriminate|].
  cbn in Hc. injection Hc as ->.
  unfold lstrip in Hd. simpl in Hd.
  eapply drop_while_head. symmetry. exact Hd.
Qed.

Lemma strip_last (s : str) c :
  last (strip U s) = Some c -> isspace U c = false.
Proof.
  unfold strip, rstrip. rewrite last_reverse. intros Hc.
  destruct (drop_while (isspace U) (reverse (lstrip U s))) as [|x r] eqn:E;
    [discriminate|].
  cbn in Hc. injection Hc as ->. eapply drop_while_head, E.
Qed.

Lemma strip_idempotent (s : str) : strip U (strip U s) = strip U s.
Proof. apply strip_fixed; [apply strip_head | apply strip_last]. Qed.

(** X1: the question kept as [original] neither starts nor ends with white
    space, and preprocessing it again changes nothing: the result depends
    on the question through its stripped form only. *)
Theorem preprocess_strip (question : str) :
  (forall c, head (original (preprocess U question)) = Some c ->
     isspace U c = false) /\
  (forall c, last (original (preprocess U question)) = Some c ->
     isspace U c = false) /\
  preprocess U (original (preprocess U question)) = preprocess U question.
Proof.
  split; [apply strip_head|]. split; [apply strip_last|].
  unfold preprocess. simpl. now rewrite strip_idempotent.
Qed.

(** X2: the tokens, put end to end, are the word characters of the lowered
    text in their order: tokenizing drops the other characters and
    nothing else. *)
Theorem preprocess_tokens_concat (question : str) :
  concat (tokens (preprocess U question)) =
  List.filter (is_word U) (lowered (preprocess U question)).
Proof.
  simpl. rewrite token_pattern_findall_spec. unfold word_pieces, split_nonword.
  rewrite concat_filter_nonempty, concat_split_on.
  apply filter_ext. intros c. apply negb_involutive.
Qed.

(** X3: a token holds word characters only, and the normalized text holds
    only word characters and spaces. *)
Theorem preprocess_alphabet (question : str) :
  Forall (fun t => forallb (is_word U) t = true)
    (tokens (preprocess U question)) /\
  forallb (fun c => is_word U c || (c =? 32))
    (processed_text (preprocess U question)) = true.
Proof.
  simpl. rewrite token_pattern_findall_spec. split.
  - eapply Forall_impl; [apply word_pieces_words|]. now intros t [].
  - apply forallb_elem. intros c Hc.
    apply join_elem in Hc as [Hc | (t & Ht & Hc)].
    + apply list_elem_of_singleton in Hc. now subst c.
    + destruct (word_pieces_spec U _ t Ht) as [_ Hw].
      destruct (Hw c Hc) as [-> _]. reflexivity.
Qed.

End NormalizerFacts.

(** ** The client *)

Section ConstructionFacts.
Context {F : Type}.
Variable float_of_str : str -> result F.
Variable environ : gmap string str.

(** X4: the constructor raises exactly when [LLM_TEMPERATURE] is set to a
    text [float] rejects, and then with the exception of [float]. *)
Theorem LLMClient_init_raises (m key base : option str) (t : F) e :
  LLMClient_init float_of_str environ m key base t = Raise e <->
  exists raw, environ !! "LLM_TEMPERATURE" = Some raw /\
              float_of_str raw = Raise e.
Proof.
  unfold LLMClient_init, getenv.
  destruct (environ !! "LLM_TEMPERATURE") as [raw|].
  - destruct (float_of_str raw) as [v|e'] eqn:E; simpl.
    + split; [discriminate|]. intros (raw' & [= <-] & H). congruence.
    + split.
      * intros [= <-]. eauto.
      * intros (raw' & [= <-] & H). congruence.
  - simpl. split; [discriminate|]. now intros (raw' & H & _).
Qed.

(** X5: the model, the credential and the endpoint base of a constructed
    client: a non-empty argument wins; otherwise the model is [LLM_MODEL]
    when set (even to the empty text) and the default name when not, the
    credential is [OPENAI_API_KEY] when non-empty and [LLM_API_KEY]
    otherwise, the endpoint base is [OPENAI_BASE_URL]. *)
Theorem LLMClient_init_precedence (m key base : option str) (t : F) c :
  LLMClient_init float_of_str environ m key base t = Return c ->
  (forall x, m = Some x -> x <> [] -> model c = x) /\
  (truthy m = false ->
   forall x, environ !! "LLM_MODEL" = Some x -> model c = x) /\
  (truthy m = false -> environ !! "LLM_MODEL" = None ->
   model c = py "gpt-4o-mini") /\
  (truthy key = true -> api_key c = key) /\
  (truthy key = false -> truthy (environ !! "OPENAI_API_KEY") = true ->
   api_key c = environ !! "OPENAI_API_KEY") /\
  (truthy key = false -> truthy (environ !! "OPENAI_API_KEY") = false ->
   api_key c = environ !! "LLM_API_KEY") /\
  (truthy base = true -> api_base c = base) /\
  (truthy base = false -> api_base c = environ !! "OPENAI_BASE_URL").
Proof.
  intros H. pose proof (LLMClient_init_model _ _ _ _ _ _ _ H) as Hm.
  destruct (LLMClient_init_credential _ _ _ _ _ _ _ H) as [Hk Hb].
  rewrite Hm, Hk, Hb. unfold py_or. repeat split.
  4-8: intros;
    repeat (cbv iota;
            match goal with
            | H : truthy ?x = _ |- context [truthy ?x] => rewrite H
            end);
    reflexivity.
  - intros x -> Hx. destruct x; [contradiction | reflexivity].
  - intros -> x ->. reflexivity.
  - intros -> ->. reflexivity.
Qed.

End ConstructionFacts.

Lemma offline_message_nonempty (preview : str) : offline_message preview <> [].
Proof.
  destruct (offline_message_shape preview) as [[rest ->] _]. discriminate.
Qed.

Section ClientFacts.
Variable U : UnicodeData.
Context {F : Type}.

Lemma offline_response_text (prompt preview : str) :
  last (splitlines prompt) = Some preview ->
  _offline_response U prompt = Return (offline_message (take 120 preview)).
Proof.
  intros Hl. unfold _offline_response. rewrite Hl. f_equal.
  apply offline_template_text. now apply (splitlines_last_no_lf prompt).
Qed.

Lemma offline_response_nonempty (prompt s : str) :
  _offline_response U prompt = Return s -> s <> [].
Proof.
  destruct (last (splitlines prompt)) as [preview|] eqn:El.
  - rewrite (offline_response_text prompt preview El). intros [= <-].
    apply offline_message_nonempty.
  - unfold _offline_response. rewrite El. discriminate.
Qed.

(** X6: without a credential the provider is never consulted: the answer
    is the same whatever provider library is installed. *)
Theorem generate_response_no_credential
    (rt rt' : Runtime F) (self : LLMClient F) (prompt : str) :
  truthy (api_key self) = false ->
  generate_response U rt self prompt = generate_response U rt' self prompt.
Proof.
  intros Hk. unfold generate_response, is_configured. now rewrite Hk.
Qed.

(** X7: a configured client returns a string on every prompt: no
    exception leaves [generate_response]. *)
Theorem generate_response_configured_returns
    (rt : Runtime F) (self : LLMClient F) (prompt : str) :
  is_configured rt self = true ->
  exists s, generate_response U rt self prompt = Return s.
Proof. apply generate_response_configured. Qed.

Lemma generate_response_returns_nonempty
    (rt : Runtime F) (self : LLMClient F) (prompt s : str) :
  generate_response U rt self prompt = Return s -> s <> [].
Proof.
  unfold generate_response.
  destruct (is_configured rt self); simpl negb; cbv iota.
  - unfold try_except.
    destruct (OpenAI rt) as [create|]; [|intros [= <-]; discriminate].
    destruct (create _) as [output|e]; simpl; [|intros [= <-]; discriminate].
    destruct (strip U (join nl (omap text_chunk output))) as [|c a] eqn:Ea;
      simpl.
    + destruct (_offline_response U prompt) as [t|e] eqn:Eo.
      * intros [= <-]. now apply (offline_response_nonempty prompt).
      * intros [= <-]. discriminate.
    + intros [= <-]. discriminate.
  - apply offline_response_nonempty.
Qed.

(** X8: the string [generate_response] returns is never empty. *)
Theorem generate_response_nonempty
    (rt : Runtime F) (self : LLMClient F) (prompt s : str) :
  generate_response U rt self prompt = Return s -> s <> [].
Proof. apply generate_response_returns_nonempty. Qed.

(** X10: when the provider answers without any text, a configured client
    falls back to the offline message, the one an unconfigured client
    gives; on the empty prompt the [IndexError] of the fallback is
    reported as an error line instead of being raised. *)
Theorem generate_response_empty_output
    (rt : Runtime F) (self : LLMClient F) (prompt : str) create output :
  is_configured rt self = true ->
  OpenAI rt = Some create ->
  create {| req_api_key := api_key self; req_base_url := api_base self;
            req_model := model self; req_input := prompt;
            req_temperature := temperature self |} = Return output ->
  strip U (join nl (omap text_chunk output)) = [] ->
  (forall preview, last (splitlines prompt) = Some preview ->
     generate_response U rt self prompt =
       Return (offline_message (take 120 preview))) /\
  (prompt = [] ->
     generate_response U rt self prompt =
       Return (py "[LLM Error] Unable to fetch response: "
               ++ py "list index out of range")).
Proof.
  intros Hc Hp Hr He. unfold generate_response.
  rewrite Hc, Hp. simpl negb. cbv iota. rewrite Hr. cbn [bind].
  rewrite He. cbn [nonempty]. split.
  - intros preview Hl. now rewrite (offline_response_text prompt preview Hl).
  - intros ->. reflexivity.
Qed.

End ClientFacts.

(** ** The service and the endpoints *)

Lemma splitlines_from_plain (cur t : str) :
  forallb (fun c => negb (is_linebreak c)) t = true ->
  cur ++ t <> [] ->
  splitlines_from cur t = [reverse cur ++ t].
Proof.
  revert cur. induction t as [|c t IH]; intros cur Ht Hne; simpl.
  - rewrite app_nil_r in *. destruct cur; [contradiction | reflexivity].
  - simpl in Ht. apply andb_prop in Ht as [Hc Ht].
    apply negb_true_iff in Hc. rewrite Hc.
    rewrite IH; [|exact Ht|discriminate].
    rewrite reverse_cons, <- app_assoc. reflexivity.
Qed.

Lemma splitlines_from_cons (cur : str) c (s : str) :
  splitlines_from cur (c :: s) =
  if is_linebreak c then
    reverse cur ::
    match s with
    | d :: s'' =>
        if (c =? 13) && (d =? 10) then splitlines_from [] s''
        else splitlines_from [] s
    | [] => []
    end
  else splitlines_from (c :: cur) s.
Proof. reflexivity. Qed.

(** The last line of a text that ends with a line feed and a plain line. *)
Lemma splitlines_last_line (n : nat) (s cur t : str) :
  (length s <= n)%nat ->
  t <> [] -> forallb (fun c => negb (is_linebreak c)) t = true ->
  last (splitlines_from cur (s ++ 10 :: t)) = Some t.
Proof.
  intros Hn Hne Ht.
  assert (Hplain : splitlines_from [] t = [t]).
  { rewrite splitlines_from_plain; [reflexivity | exact Ht | exact Hne]. }
  assert (Hlf : forall cur', last (splitlines_from cur' (10 :: t)) = Some t).
  { intros cur'. rewrite splitlines_from_cons. cbn [is_linebreak].
    change (is_linebreak 10) with true. cbv iota. rewrite last_cons.
    destruct t as [|d t']; [contradiction|].
    change ((10 =? 13) && (d =? 10)) with false. cbv iota.
    now rewrite Hplain. }
  revert s cur Hn. induction n as [|n IH]; intros s cur Hn.
  - destruct s; [apply Hlf | simpl in Hn; lia].
  - destruct s as [|c s]; [apply Hlf|]. simpl in Hn.
    change ((c :: s) ++ 10 :: t) with (c :: (s ++ 10 :: t)).
    rewrite splitlines_from_cons. destruct (is_linebreak c).
    + rewrite last_cons.
      destruct s as [|d s'].
      * change ([] ++ 10 :: t) with (10 :: t).
        destruct (c =? 13); cbn [andb]; cbv iota.
        -- change (10 =? 10) with true. cbv iota. now rewrite Hplain.
        -- now rewrite Hlf.
      * simpl in Hn. change ((d :: s') ++ 10 :: t) with (d :: (s' ++ 10 :: t)).
        pose proof (IH s' [] ltac:(lia)) as IH1.
        pose proof (IH (d :: s') [] ltac:(simpl; lia)) as IH2.
        change ((d :: s') ++ 10 :: t) with (d :: (s' ++ 10 :: t)) in IH2.
        destruct (c =? 13); destruct (d =? 10); cbn [andb]; cbv iota;
          first [now rewrite IH1 | now rewrite IH2].
    + apply IH. lia.
Qed.

Lemma prompt_message_last_line (original processed_text : str) :
  last (splitlines (prompt_message original processed_text)) =
  Some (py "Answer:").
Proof.
  assert (E : exists X, prompt_message original processed_text =
                        X ++ 10 :: py "Answer:").
  { eexists. unfold prompt_message, prompt_lines.
    cbn [map default from_option id join].
    rewrite !app_assoc. rewrite <- (app_assoc _ nl (py "Answer:")).
    reflexivity. }
  destruct E as [X ->]. unfold splitlines.
  apply (splitlines_last_line (length X)); [lia | discriminate | reflexivity].
Qed.

Section ServiceFacts.
Variable U : UnicodeData.
Context {F : Type}.
Variable rt : Runtime F.

(** X13: for a question entered on one line, the answer of an unconfigured
    service is the offline message around the last line of the prompt,
    which is [Answer:] and not the question. *)
Theorem answer_question_offline_echo
    (self : LLMQAService F) (question : str) :
  is_configured rt (client self) = false ->
  no_lf (strip U question) ->
  exists r,
    answer_question U rt self question = Return r /\
    answer r = offline_message (py "Answer:").
Proof.
  intros Hc Hq.
  destruct (answer_question_returns U rt self question) as (a & Ha & ->).
  eexists. split; [reflexivity|]. simpl.
  rewrite (build_prompt_single_line U (preprocess U question) Hq
             (processed_text_no_lf U question)) in Ha.
  rewrite (generate_response_offline_text U rt (client self) _ (py "Answer:")
             Hc (prompt_message_last_line _ _)) in Ha.
  now injection Ha as <-.
Qed.

Lemma api_ask_question (self : LLMQAService F) (fields : list (str * json))
    (s : str) :
  dict_get fields (py "question") = Some (JString s) ->
  api_ask U rt self (Some (JObject fields)) =
    if negb (nonempty (strip U s)) then Return error_response
    else r <- answer_question U rt self (strip U s);;
         Return (answer_response (strip U s) r).
Proof.
  intros Hd. unfold api_ask.
  assert (E : (if json_truthy (JObject fields) then JObject fields
               else JObject []) = JObject fields) by now destruct fields.
  rewrite E. cbn [bind]. rewrite Hd. cbn [json_truthy].
  destruct s as [|c s]; reflexivity.
Qed.

Lemma api_ask_object_data (fields : list (str * json)) :
  (if json_truthy (JObject fields) then JObject fields else JObject []) =
  JObject fields.
Proof. now destruct fields. Qed.

Lemma api_ask_not_object (self : LLMQAService F) (j : json) :
  json_truthy j = true -> (forall fields, j <> JObject fields) ->
  api_ask U rt self (Some j) = Raise (AttributeError (type_name j) "get").
Proof.
  intros Ht Hj. unfold api_ask. rewrite Ht.
  destruct j; try reflexivity. now destruct (Hj fields).
Qed.

Lemma api_ask_falsy (self : LLMQAService F) (j : json) :
  json_truthy j = false ->
  api_ask U rt self (Some j) = Return error_response.
Proof. intros Ht. unfold api_ask. now rewrite Ht. Qed.

Lemma api_ask_not_string (self : LLMQAService F)
    (fields : list (str * json)) (v : json) :
  dict_get fields (py "question") = Some v ->
  json_truthy v = true -> (forall s, v <> JString s) ->
  api_ask U rt self (Some (JObject fields)) =
    Raise (AttributeError (type_name v) "strip").
Proof.
  intros Hd Ht Hv. unfold api_ask.
  rewrite api_ask_object_data. cbn [bind]. rewrite Hd, Ht.
  destruct v; try reflexivity. now destruct (Hv s).
Qed.

Lemma api_ask_falsy_question (self : LLMQAService F)
    (fields : list (str * json)) :
  match dict_get fields (py "question") with
  | Some v => json_truthy v = false
  | None => True
  end ->
  api_ask U rt self (Some (JObject fields)) = Return error_response.
Proof.
  intros Hq. unfold api_ask. rewrite api_ask_object_data. cbn [bind].
  destruct (dict_get fields (py "question")) as [v|]; [|reflexivity].
  now rewrite Hq.
Qed.

(** X14: the handler of the JSON endpoint raises in two cases only, each
    time with [AttributeError]: the body is a non-empty JSON value other
    than an object, or the question is a non-empty value other than a
    string. *)
Theorem api_ask_raises (self : LLMQAService F) (parsed : option json) e :
  api_ask U rt self parsed = Raise e <->
  (exists j, parsed = Some j /\ json_truthy j = true /\
             (forall fields, j <> JObject fields) /\
             e = AttributeError (type_name j) "get") \/
  (exists fields v, parsed = Some (JObject fields) /\
             dict_get fields (py "question") = Some v /\
             json_truthy v = true /\ (forall s, v <> JString s) /\
             e = AttributeError (type_name v) "strip").
Proof.
  split.
  - destruct parsed as [j|]; [|discriminate].
    assert (Hobj : (exists fields, j = JObject fields) \/
                   (forall fields, j <> JObject fields)).
    { destruct j; eauto; right; discriminate. }
    destruct Hobj as [[fields ->] | Hj].
    + destruct (dict_get fields (py "question")) as [v|] eqn:Ed.
      * assert (Hstr : (exists s, v = JString s) \/
                       (forall s, v <> JString s)).
        { destruct v; eauto; right; discriminate. }
        destruct Hstr as [[s ->] | Hv].
        -- rewrite (api_ask_question self fields s Ed).
           destruct (negb (nonempty (strip U s))); [discriminate|].
           destruct (answer_question_returns U rt self (strip U s))
             as (a & _ & ->). discriminate.
        -- destruct (json_truthy v) eqn:Et.
           ++ rewrite (api_ask_not_string self fields v Ed Et Hv).
              intros [= <-]. right. eauto 10.
           ++ rewrite api_ask_falsy_question; [discriminate|].
              now rewrite Ed.
      * rewrite api_ask_falsy_question; [discriminate|]. now rewrite Ed.
    + destruct (json_truthy j) eqn:Et.
      * rewrite (api_ask_not_object self j Et Hj).
        intros [= <-]. left. eauto 10.
      * rewrite (api_ask_falsy self j Et). discriminate.
  - intros [(j & -> & Ht & Hj & ->) | (fields & v & -> & Hd & Ht & Hv & ->)].
    + now apply api_ask_not_object.
    + now apply api_ask_not_string.
Qed.

(** X15: the endpoint answers 400 with the error body when the request
    holds no JSON, when its JSON value is empty ([null], [false], [0], an
    empty string, array or object), and when the question of an object is
    missing or such an empty value. *)
Theorem api_ask_empty_values (self : LLMQAService F) (parsed : option json) :
  parsed = None \/
  (exists j, parsed = Some j /\ json_truthy j = false) \/
  (exists fields, parsed = Some (JObject fields) /\
     match dict_get fields (py "question") with
     | Some v => json_truthy v = false
     | None => True
     end) ->
  api_ask U rt self parsed = Return error_response.
Proof.
  intros [-> | [(j & -> & Ht) | (fields & -> & Hq)]].
  - reflexivity.
  - now apply api_ask_falsy.
  - now apply api_ask_falsy_question.
Qed.

(** X16: a response of the endpoint is the error body or the fields of a
    result of [answer_question]; the question it echoes is the one the
    result holds, stripped and not empty, and the answer is not empty. *)
Theorem api_ask_response (self : LLMQAService F) (parsed : option json)
    (resp : response) :
  api_ask U rt self parsed = Return resp ->
  resp = error_response \/
  exists r,
    answer_question U rt self (original_question r) = Return r /\
    resp = answer_response (original_question r) r /\
    original_question r <> [] /\ answer r <> [].
Proof.
  intros H.
  assert (Hcases : resp = error_response \/
    exists q, q <> [] /\ strip U q = q /\
      (r <- answer_question U rt self q;; Return (answer_response q r)) =
      Return resp).
  { revert H. unfold api_ask.
    destruct (match parsed with
              | Some j => if json_truthy j then j else JObject []
              | None => JObject []
              end) as [|b|z|q|s|items|fields]; try discriminate.
    cbn [bind].
    destruct (match dict_get fields (py "question") with
              | Some j => if json_truthy j then j else JString []
              | None => JString []
              end) as [|b|z|q|s|items|fields']; try discriminate.
    cbn [bind]. destruct (strip U s) as [|c q] eqn:Es; simpl.
    - intros [= <-]. now left.
    - intros H. right. exists (c :: q). split; [discriminate|].
      split; [|exact H]. rewrite <- Es. apply strip_idempotent. }
  destruct Hcases as [-> | (q & Hne & Hs & Hr)]; [now left|]. right.
  destruct (answer_question_returns U rt self q) as (a & Ha & Hq).
  rewrite Hq in Hr. cbn [bind] in Hr. injection Hr as <-.
  rewrite Hs in Hq.
  exists {| original_question := q;
            processed_question := processed_text (preprocess U q);
            result_tokens := tokens (preprocess U q);
            prompt := build_prompt U (preprocess U q);
            answer := a |}.
  cbn [original_question answer].
  split; [exact Hq|]. split; [reflexivity|]. split; [exact Hne|].
  exact (generate_response_returns_nonempty U rt _ _ _ Ha).
Qed.


(** X18: the form page and the JSON endpoint answer one question alike:
    both strip it, both refuse it when blank, and otherwise both show the
    fields of the same result. *)
Theorem index_agrees_with_api_ask (self : LLMQAService F)
    (form : list (str * str)) (fields : list (str * json)) (s : str) :
  form_get form (py "question") = s ->
  dict_get fields (py "question") = Some (JString s) ->
  (strip U s = [] /\
   api_ask U rt self (Some (JObject fields)) = Return error_response /\
   exists ctx, index U rt self POST form = Return ctx /\
               ctx_error ctx = py "Please enter a question.") \/
  (strip U s <> [] /\
   exists r,
     answer_question U rt self (strip U s) = Return r /\
     api_ask U rt self (Some (JObject fields)) =
       Return (answer_response (strip U s) r) /\
     index U rt self POST form =
       Return {| ctx_question := strip U s;
                 ctx_processed_question := processed_question r;
                 ctx_tokens := result_tokens r;
                 ctx_answer := answer r;
                 ctx_error := [] |}).
Proof.
  intros Hf Hd. rewrite (api_ask_question self fields s Hd).
  unfold index. rewrite Hf.
  destruct (strip U s) as [|c q] eqn:Es; simpl.
  - left. split; [reflexivity|]. split; [reflexivity|].
    eexists. split; reflexivity.
  - right. split; [discriminate|].
    destruct (answer_question_returns U rt self (c :: q)) as (a & _ & ->).
    eexists. repeat split.
Qed.

End ServiceFacts.

(** ** The command line *)

Section CommandLine.
Variable U : UnicodeData.
Context {F : Type}.
Variable rt : Runtime F.

Lemma dot_not_word : is_word U 46 = false.
Proof. reflexivity. Qed.

(** X19: on the tokens of a question, the preview of [render_result] ends
    with the marker [, ...] exactly when there are more than ten tokens:
    no token can be taken for the marker. *)
Theorem tokens_preview_marker (question : str) :
  let toks := tokens (preprocess U question) in
  (exists pre, tokens_preview toks = pre ++ py ", ...") <->
  (10 < length toks)%nat.
Proof.
  intros toks. unfold tokens_preview. split.
  - intros [pre H]. destruct (10 <? length toks)%nat eqn:E.
    + now apply Nat.ltb_lt in E.
    + exfalso. apply Nat.ltb_ge in E.
      rewrite take_ge in H by exact E.
      assert (Hl : last (join (py ", ") toks) = Some 46).
      { rewrite H. change (py ", ...") with ([44; 32; 46; 46] ++ [46]).
        rewrite app_assoc. apply last_snoc. }
      assert (Hw : Forall (fun t => t <> [] /\ forallb (is_word U) t = true)
                     toks).
      { unfold toks. simpl. rewrite token_pattern_findall_spec.
        apply word_pieces_words. }
      destruct (last toks) as [t|] eqn:Et.
      * pose proof (proj1 (Forall_forall _ _) Hw t (last_Some_elem_of _ _ Et))
          as [Hne Hwt].
        rewrite (join_last _ _ t Et Hne) in Hl.
        apply last_Some_elem_of in Hl.
        pose proof (proj1 (forallb_elem _ _) Hwt 46 Hl) as Hd.
        rewrite dot_not_word in Hd. discriminate.
      * apply last_None in Et. rewrite Et in Hl. discriminate.
  - intros Hlt. apply Nat.ltb_lt in Hlt. rewrite Hlt. eauto.
Qed.

Lemma interactive_rounds_returns (service : LLMQAService F)
    (inputs : list input_event) :
  exists out,
    interactive_rounds U rt service inputs = Return out /\
    (last out = Some (py "Goodbye." ++ nl) \/
     last out = Some (nl ++ py "Exiting." ++ nl)).
Proof.
  induction inputs as [|[text|] rest (out & IH & Hl)].
  - eexists. split; [reflexivity|]. now right.
  - simpl. destruct (strip U text) as [|c q] eqn:Es; simpl.
    + rewrite IH. cbn [bind]. eexists. split; [reflexivity|].
      rewrite last_cons. destruct Hl as [-> | ->]; auto.
    + destruct (is_sentinel U (c :: q)).
      * eexists. split; [reflexivity|]. now left.
      * destruct (answer_question_returns U rt service (c :: q))
          as (a & _ & ->).
        cbn [bind]. rewrite IH. cbn [bind]. eexists.
        split; [reflexivity|].
        rewrite !last_cons. destruct Hl as [-> | ->]; auto.
  - eexists. split; [reflexivity|]. now right.
Qed.

Lemma interactive_loop_returns_aux (service : LLMQAService F)
    (inputs : list input_event) :
  exists out, interactive_loop U rt service inputs = Return out.
Proof.
  unfold interactive_loop.
  destruct (interactive_rounds_returns service inputs) as (out & -> & _).
  cbn [bind]. eauto.
Qed.


(** X21: the loop reads nothing behind a sentinel or an interrupt: what
    the terminal holds after it has no effect. *)
Theorem interactive_loop_stops (service : LLMQAService F)
    (before after : list input_event) (stop : input_event) :
  match stop with
  | Line text => is_sentinel U (strip U text) = true
  | Interrupt => True
  end ->
  interactive_loop U rt service (before ++ stop :: after) =
  interactive_loop U rt service (before ++ [stop]).
Proof.
  intros Hstop. unfold interactive_loop. f_equal.
  induction before as [|[text|] before IH]; simpl.
  - destruct stop as [text|]; [|reflexivity].
    destruct (strip U text) as [|c q] eqn:Es; [discriminate Hstop|].
    simpl. now rewrite Hstop.
  - now rewrite IH.
  - reflexivity.
Qed.

Variable float_of_str : str -> result F.
Variable environ : gmap string str.
Variable float_truthy : F -> bool.
Variable default_temperature : F.


End CommandLine.

(** ** What [build_prompt] keeps of every question *)

Section PromptFacts.
Variable U : UnicodeData.

Lemma filter_nonspace_app (a b : str) :
  List.filter (fun c => negb (isspace U c)) (a ++ b) =
  List.filter (fun c => negb (isspace U c)) a ++
  List.filter (fun c => negb (isspace U c)) b.
Proof. apply List.filter_app. Qed.

Lemma filter_nonspace_spaces (a : str) :
  forallb (isspace U) a = true ->
  List.filter (fun c => negb (isspace U c)) a = [].
Proof.
  induction a as [|c a IH]; simpl; [reflexivity|].
  intros H. apply andb_prop in H as [-> Ha]. now apply IH.
Qed.

Lemma filter_nonspace_strip (s : str) :
  List.filter (fun c => negb (isspace U c)) (strip U s) =
  List.filter (fun c => negb (isspace U c)) s.
Proof.
  destruct (strip_decompose U s) as (a & b & Hs & Ha & Hb).
  rewrite Hs at 2. rewrite !filter_nonspace_app.
  rewrite (filter_nonspace_spaces a Ha), (filter_nonspace_spaces b Hb).
  now rewrite app_nil_r.
Qed.

Lemma filter_nonspace_unblank (s : str) :
  List.filter (fun c => negb (isspace U c)) (unblank s) =
  List.filter (fun c => negb (isspace U c)) s.
Proof.
  induction s as [|c s IH]; [reflexivity|].
  unfold unblank in *. simpl. destruct (is_blank c) eqn:Eb; simpl.
  - assert (Hs : isspace U c = true).
    { unfold is_blank in Eb. apply orb_true_iff in Eb as [E | E];
        apply N.eqb_eq in E; subst c; reflexivity. }
    rewrite Hs. exact IH.
  - now rewrite IH.
Qed.

(** X12: whatever the question, its lines and its indentation, building
    the prompt removes white space only: the prompt and the filled
    template hold the same other characters in the same order. *)
Theorem build_prompt_keeps_nonspace (p : ProcessedQuestion) :
  List.filter (fun c => negb (isspace U c)) (build_prompt U p) =
  List.filter (fun c => negb (isspace U c))
    (prompt_template (original p) (processed_text p)).
Proof.
  unfold build_prompt. rewrite filter_nonspace_strip.
  rewrite <- filter_nonspace_unblank, unblank_dedent.
  apply filter_nonspace_unblank.
Qed.

End PromptFacts.

(** ** Instances of the properties above *)

Lemma LLMClient_init_precedence_witness :
  let c := {| model := py "arg-model"; api_key := Some (py "sk-env");
              api_base := None; temperature := (7 # 10)%Q |} in
  LLMClient_init decimal_float_of_str
    {["LLM_MODEL" := py "env-model"; "LLM_API_KEY" := py "sk-env"]}
    (Some (py "arg-model")) None None (7 # 10)%Q = Return c /\
  model c = py "arg-model" /\
  api_key c = Some (py "sk-env").
Proof.
  assert (H : LLMClient_init decimal_float_of_str
                {["LLM_MODEL" := py "env-model"; "LLM_API_KEY" := py "sk-env"]}
                (Some (py "arg-model")) None None (7 # 10)%Q =
              Return {| model := py "arg-model"; api_key := Some (py "sk-env");
                        api_base := None; temperature := (7 # 10)%Q |})
    by (vm_compute; reflexivity).
  split; [exact H|].
  destruct (LLMClient_init_precedence decimal_float_of_str _ _ _ _ _ _ H)
    as (Hm & _ & _ & _ & _ & Hk & _).
  split; [now apply (Hm (py "arg-model")) |].
  rewrite Hk by reflexivity. vm_compute. reflexivity.
Defined.

Lemma generate_response_no_credential_witness :
  truthy (api_key (sample_client None)) = false /\
  generate_response sample_ucd offline_runtime (sample_client None)
    (py "hi") =
  generate_response sample_ucd (failing_runtime ValueError)
    (sample_client None) (py "hi").
Proof.
  split; [reflexivity|].
  apply (generate_response_no_credential sample_ucd offline_runtime
           (failing_runtime ValueError) (sample_client None) (py "hi")).
  reflexivity.
Defined.

Lemma generate_response_configured_returns_witness :
  is_configured (failing_runtime ValueError)
    (sample_client (Some (py "sk-test"))) = true /\
  exists s,
    generate_response sample_ucd (failing_runtime ValueError)
      (sample_client (Some (py "sk-test"))) [] = Return s.
Proof.
  split; [reflexivity|].
  apply (generate_response_configured_returns sample_ucd
           (failing_runtime ValueError)
           (sample_client (Some (py "sk-test"))) []).
  reflexivity.
Defined.

Lemma generate_response_nonempty_witness :
  generate_response sample_ucd offline_runtime (sample_client None)
    (py "hello") = Return (offline_message (py "hello")) /\
  offline_message (py "hello") <> [].
Proof.
  split; [vm_compute; reflexivity|].
  apply (generate_response_nonempty sample_ucd offline_runtime
           (sample_client None) (py "hello")).
  vm_compute. reflexivity.
Defined.

Lemma generate_response_offline_shape_witness :
  is_configured offline_runtime (sample_client None) = false /\
  last (splitlines (py "hello")) = Some (py "hello") /\
  exists text rest,
    generate_response sample_ucd offline_runtime (sample_client None)
      (py "hello") = Return text /\
    text = py "[Offline Response]" ++ rest /\
    substring (take 120 (py "hello") ++ py "...") text.
Proof.
  split; [reflexivity|]. split; [reflexivity|].
  apply (generate_response_offline_shape sample_ucd offline_runtime
           (sample_client None) (py "hello") (py "hello"));
    reflexivity.
Defined.

Lemma generate_response_empty_output_witness :
  let output := [ {| block_text := None |};
                  {| block_text := Some None |};
                  {| block_text := Some (Some []) |} ] in
  let rt := answering_runtime output in
  let self := sample_client (Some (py "sk-test")) in
  is_configured rt self = true /\
  strip sample_ucd (join nl (omap text_chunk output)) = [] /\
  (forall preview, last (splitlines (py "hello")) = Some preview ->
     generate_response sample_ucd rt self (py "hello") =
       Return (offline_message (take 120 preview))) /\
  (py "hello" = [] ->
     generate_response sample_ucd rt self (py "hello") =
       Return (py "[LLM Error] Unable to fetch response: "
               ++ py "list index out of range")).
Proof.
  intros output rt self.
  split; [reflexivity|]. split; [reflexivity|].
  exact (generate_response_empty_output sample_ucd rt self (py "hello")
           (fun _ => Return output) output eq_refl eq_refl eq_refl eq_refl).
Defined.

Lemma build_prompt_contains_witness :
  no_lf (strip sample_ucd (py " What is NLP? ")) /\
  let p := preprocess sample_ucd (py " What is NLP? ") in
  substring (original p) (build_prompt sample_ucd p) /\
  substring (processed_text p) (build_prompt sample_ucd p).
Proof.
  split; [reflexivity|].
  apply (build_prompt_contains sample_ucd (py " What is NLP? ")).
  reflexivity.
Defined.

Lemma answer_question_offline_echo_witness :
  is_configured offline_runtime (client (sample_service None)) = false /\
  no_lf (strip sample_ucd (py "Explain recursion")) /\
  exists r,
    answer_question sample_ucd offline_runtime (sample_service None)
      (py "Explain recursion") = Return r /\
    answer r = offline_message (py "Answer:").
Proof.
  split; [reflexivity|]. split; [reflexivity|].
  apply (answer_question_offline_echo sample_ucd offline_runtime
           (sample_service None) (py "Explain recursion"));
    reflexivity.
Defined.

Lemma api_ask_empty_values_witness :
  api_ask sample_ucd offline_runtime (sample_service None)
    (Some (JObject [(py "question", JInt 0)])) = Return error_response /\
  api_ask sample_ucd offline_runtime (sample_service None)
    (Some (JArray [])) = Return error_response.
Proof.
  split.
  - apply (api_ask_empty_values sample_ucd offline_runtime
             (sample_service None)).
    right. right. exists [(py "question", JInt 0)]. split; reflexivity.
  - apply (api_ask_empty_values sample_ucd offline_runtime
             (sample_service None)).
    right. left. exists (JArray []). split; reflexivity.
Defined.

Lemma api_ask_response_witness :
  exists resp,
    api_ask sample_ucd offline_runtime (sample_service None)
      (Some (JObject [(py "question", JString (py " hi "))])) =
    Return resp /\
    (resp = error_response \/
     exists r,
       answer_question sample_ucd offline_runtime (sample_service None)
         (original_question r) = Return r /\
       resp = answer_response (original_question r) r /\
       original_question r <> [] /\ answer r <> []).
Proof.
  eexists. split; [vm_compute; reflexivity|].
  apply (api_ask_response sample_ucd offline_runtime (sample_service None)
           (Some (JObject [(py "question", JString (py " hi "))]))).
  vm_compute. reflexivity.
Defined.

Lemma index_agrees_with_api_ask_witness :
  let form := [(py "question", py " hi ")] in
  let fields := [(py "question", JString (py " hi "))] in
  form_get form (py "question") = py " hi " /\
  dict_get fields (py "question") = Some (JString (py " hi ")) /\
  exists r,
    answer_question sample_ucd offline_runtime (sample_service None)
      (py "hi") = Return r /\
    api_ask sample_ucd offline_runtime (sample_service None)
      (Some (JObject fields)) = Return (answer_response (py "hi") r) /\
    index sample_ucd offline_runtime (sample_service None) POST form =
      Return {| ctx_question := py "hi";
                ctx_processed_question := processed_question r;
                ctx_tokens := result_tokens r;
                ctx_answer := answer r;
                ctx_error := [] |}.
Proof.
  split; [reflexivity|]. split; [reflexivity|].
  destruct (index_agrees_with_api_ask sample_ucd offline_runtime
              (sample_service None) [(py "question", py " hi ")]
              [(py "question", JString (py " hi "))] (py " hi ")
              eq_refl eq_refl)
    as [[He _] | [_ (r & Hr & Ha & Hi)]].
  - vm_compute in He. discriminate He.
  - exists r. change (strip sample_ucd (py " hi ")) with (py "hi") in *.
    split; [exact Hr|]. split; [exact Ha | exact Hi].
Defined.

Lemma interactive_loop_stops_witness :
  is_sentinel sample_ucd (strip sample_ucd (py " EXIT ")) = true /\
  interactive_loop sample_ucd offline_runtime (sample_service None)
    ([Line (py "hi")] ++ Line (py " EXIT ") :: [Line (py "more"); Interrupt]) =
  interactive_loop sample_ucd offline_runtime (sample_service None)
    ([Line (py "hi")] ++ [Line (py " EXIT ")]).
Proof.
  split; [vm_compute; reflexivity|].
  apply (interactive_loop_stops sample_ucd offline_runtime
           (sample_service None) [Line (py "hi")]
           [Line (py "more"); Interrupt] (Line (py " EXIT "))).
  vm_compute. reflexivity.
Defined.
